(** * qless-py: the forking worker supervisor

    A shallow embedding of [qless/workers/forking.py] (class
    [ForkingWorker]) and of the logger reload of [qless/__init__.py].

    The supervisor is a single-threaded Python 2 process.  Its state is
    the [ForkingWorker] instance; everything else it touches is the
    operating system (fork, wait, waitpid, kill, getcwd) and the
    collaborators that live in other modules (the [Worker] base class,
    [util.import_class], [psutil], the worker unit that a child runs).
    Those are gathered in the [Env] class below, so that every statement
    holds for any behaviour of the operating system.  Python exceptions
    are values of [exn]; a method is a function from machine states to a
    result and a new machine state.  The delivery of a signal is a call of
    [handler] on the state it finds; a blocking call that a signal
    interrupts is a call that fails with [EINTR].  The [while] loop of
    [run] takes fuel: one unit per turn.

    The module [Logger] embeds [_getLogger] and [_reloadLogger] over the
    handler list of the logger and the file system behind the log files.
    The supervisor never reads the handlers: it sees of a reload the
    opening of the two log files, which can fail, and the records
    written. *)

From Stdlib Require Import Ascii.
From stdpp Require Import base gmap strings list pretty.

Open Scope Z_scope.

(** ** Python values, exceptions, signals *)

(** The keyword options of a worker are a [dict] of dynamically typed
    values; these are the shapes the supervisor handles. *)
Inductive pyval :=
| VNone
| VBool (b : bool)
| VInt (n : Z)
| VStr (s : string)
| VJobs (js : list string)
| VClass (name : string).

(** Python truth value, as used by [x or y]. *)
Definition truthy (v : pyval) : bool :=
  match v with
  | VNone => false
  | VBool b => b
  | VInt n => negb (n =? 0)
  | VStr s => negb (String.eqb s "")
  | VJobs js => match js with [] => false | _ => true end
  | VClass _ => true
  end.

Definition py_or (a b : pyval) : pyval := if truthy a then a else b.

Inductive exn :=
| OSError (errno : Z)
| KeyError (key : Z)
| UnboundLocalError (name : string)
| IndexError
| TypeError
| SystemExit (code : Z)
| IOError (errno : Z).                     (* not an [OSError] in Python 2 *)

Inductive result (A : Type) :=
| Ok (a : A)
| Raise (e : exn).
Arguments Ok {A} a.
Arguments Raise {A} e.

(** Outcome of an operating system call: Python turns a failure into
    [OSError(errno)]. *)
Inductive os_result (A : Type) :=
| Success (a : A)
| Failure (errno : Z).
Arguments Success {A} a.
Arguments Failure {A} errno.

(** [signal.SIG*] and [errno.*] on Linux. *)
Definition SIGHUP : Z := 1.
Definition SIGINT : Z := 2.
Definition SIGQUIT : Z := 3.
Definition SIGKILL : Z := 9.
Definition SIGTERM : Z := 15.

Definition EPERM : Z := 1.
Definition ESRCH : Z := 3.
Definition EINTR : Z := 4.
Definition ECHILD : Z := 10.
Definition EAGAIN : Z := 11.
Definition ENOSYS : Z := 38.

(** ** What the supervisor leaves behind: log lines and system calls *)

Inductive level := INFO | WARN | ERROR.

(** One constructor per format string of [forking.py] and of
    [_reloadLogger]. *)
Inductive message :=
| Stopping (cpid : Z)                      (* 'Stopping %i...' *)
| WaitingFor (cpid : Z)                    (* 'Waiting for %i...' *)
| StoppedWith (pid code : Z)               (* '%i stopped with status %i' *)
| ErrorWaiting (cpid : Z)                  (* 'Error waiting for %i...' *)
| SpawnedWorker (cpid : Z)                 (* 'Spawned worker %i' *)
| WorkerDied (pid code sig : Z)            (* 'Worker %i died with status %i from signal %i' *)
| SpawnedReplacement (cpid : Z)            (* 'Spawned replacement worker %i' *)
| ReloadingLogger
| ReloadedLogger.

Inductive event :=
| Log (lvl : level) (msg : message)
| Handlers (sigs : list Z)                 (* signal handlers registered *)
| Signalled (cpid sig : Z)                 (* os.kill(cpid, sig) returned *)
| Forked (cpid : Z)                        (* os.fork() returned cpid in the parent *)
| Reaped (pid status : Z)                  (* os.wait() / os.waitpid() returned *)
| LoggerReset                              (* handlers dropped and rebuilt *)
| EnterSandbox (path : string)
| LeaveSandbox (path : string)
| Chdir (path : string)
| WorkerUnit (klass : pyval) (queues : list string) (client : string)
             (options : gmap string pyval). (* klass(queues, client, **options) *)

(** ** The instance *)

(** Attributes that [Worker.__init__] (in [qless/workers/__init__.py])
    leaves on the instance and that [forking.py] reads. *)
Record Worker := {
  w_queues : list string;
  w_client : string;
  w_kwargs : gmap string pyval;
  w_resume : list string;
}.

Record ForkingWorker := {
  queues : list string;
  client : string;
  kwargs : gmap string pyval;
  resume : list string;
  klass : pyval;
  count : pyval;
  sandboxes : gmap Z string;
  shutdown : bool;
}.

Definition set_sandboxes (f : gmap Z string → gmap Z string) (s : ForkingWorker) : ForkingWorker :=
  {| queues := queues s; client := client s; kwargs := kwargs s; resume := resume s;
     klass := klass s; count := count s; sandboxes := f (sandboxes s);
     shutdown := shutdown s |}.

Definition set_klass (k : pyval) (s : ForkingWorker) : ForkingWorker :=
  {| queues := queues s; client := client s; kwargs := kwargs s; resume := resume s;
     klass := k; count := count s; sandboxes := sandboxes s;
     shutdown := shutdown s |}.

(** [d.keys()] of Python 2: a fresh list of the keys, in the order of the
    table. *)
Definition keys (d : gmap Z string) : list Z := (map_to_list d).*1.

(** ** Paths *)

Fixpoint ends_with_slash (s : string) : bool :=
  match s with
  | EmptyString => false
  | String c EmptyString => Ascii.eqb c "/"%char
  | String _ rest => ends_with_slash rest
  end.

Definition starts_with_slash (s : string) : bool :=
  match s with
  | String c _ => Ascii.eqb c "/"%char
  | EmptyString => false
  end.

(** [posixpath.join(a, *p)]. *)
Fixpoint path_join (path : string) (p : list string) : string :=
  match p with
  | [] => path
  | b :: rest =>
      if starts_with_slash b then path_join b rest
      else if String.eqb path "" || ends_with_slash path then path_join (path +:+ b) rest
      else path_join (path +:+ "/" +:+ b) rest
  end.

(** The expression of [run]:
    [os.path.join(os.getcwd(), 'qless-py-workers', 'sandbox-%s' % index)]. *)
Definition sandbox_path (cwd : string) (index : nat) : string :=
  path_join cwd ["qless-py-workers"; "sandbox-" +:+ pretty index].

(** ** The logger of [qless/__init__.py]

    [_getLogger] and [_reloadLogger] on their own.  The state is the
    handler list of the logger ['qless'], the file system behind the log
    files and the records handed to the logger.  A handler is added
    and removed as [logging.Logger] does it: [addHandler] appends a
    handler that is not in the list, [removeHandler] removes the first
    occurrence of one that is.  [WatchedFileHandler(filename)] opens its
    file when it is built, and fails with [IOError] when the file cannot
    be opened. *)
Module Logger.

Inductive stream :=
| File (filename : string)                 (* WatchedFileHandler(filename) *)
| Stderr.                                  (* StreamHandler() *)

Inductive formatter :=
| Formatter (fmt : string)                 (* logging.Formatter(fmt) *)
| LogstashFormatterV1.

(** [logging.DEBUG] and [logging.INFO]; [errno.ENOENT]. *)
Definition DEBUG : Z := 10.
Definition INFO : Z := 20.
Definition ENOENT : Z := 2.

Record Handler := {
  h_stream : stream;
  h_formatter : formatter;
  h_level : Z;
}.

#[global] Instance stream_eq_dec : EqDecision stream.
Proof. solve_decision. Defined.
#[global] Instance formatter_eq_dec : EqDecision formatter.
Proof. solve_decision. Defined.
#[global] Instance Handler_eq_dec : EqDecision Handler.
Proof. solve_decision. Defined.

Inductive outcome (A : Type) :=
| Done (a : A)
| IOError (errno : Z).
Arguments Done {A} a.
Arguments IOError {A} errno.

(** The file system: opening a log file for appending. *)
Class Disk (F : Type) := {
  open_append : string → F → os_result unit * F;
}.

Record logging (F : Type) := Logging {
  handlers : list Handler;
  disk : F;
  (** the records handed to the logger, each with the handlers the
      logger had at that moment *)
  records : list (message * list Handler);
}.
Arguments Logging {F} handlers disk records.
Arguments handlers {F} l.
Arguments disk {F} l.
Arguments records {F} l.

Definition log_filename : string := "/var/log/qless/qless.log".
Definition logstash_filename : string := "/var/log/qless/qless.json".

Definition plain : formatter :=
  Formatter "%(asctime)s | PID %(process)d | [%(levelname)s] %(message)s".

Definition filehandler : Handler :=
  {| h_stream := File log_filename; h_formatter := plain; h_level := INFO |}.
Definition logstash_handler : Handler :=
  {| h_stream := File logstash_filename; h_formatter := LogstashFormatterV1;
     h_level := INFO |}.
Definition consolehandler : Handler :=
  {| h_stream := Stderr; h_formatter := plain; h_level := DEBUG |}.

(** [list.remove(h)] on a list that holds [h]. *)
Fixpoint remove_first (h : Handler) (hs : list Handler) : list Handler :=
  match hs with
  | [] => []
  | h' :: rest => if decide (h' = h) then rest else h' :: remove_first h rest
  end.

Section Methods.
Context {F : Type} `{!Disk F}.

(** [logger.info(msg)] *)
Definition info (msg : message) (l : logging F) : logging F :=
  Logging (handlers l) (disk l) (records l ++ [(msg, handlers l)]).

Definition addHandler (h : Handler) (l : logging F) : logging F :=
  if decide (h ∈ handlers l) then l
  else Logging (handlers l ++ [h]) (disk l) (records l).

Definition removeHandler (h : Handler) (l : logging F) : logging F :=
  if decide (h ∈ handlers l)
  then Logging (remove_first h (handlers l)) (disk l) (records l)
  else l.

Definition WatchedFileHandler (filename : string) (l : logging F)
  : outcome unit * logging F :=
  match open_append filename (disk l) with
  | (Success _, d) => (Done tt, Logging (handlers l) d (records l))
  | (Failure errno, d) => (IOError errno, Logging (handlers l) d (records l))
  end.

(** [_getLogger()]: the handlers are built and added one after the
    other, and only when the logger has none. *)
Definition _getLogger (l : logging F) : outcome unit * logging F :=
  match handlers l with
  | _ :: _ => (Done tt, l)
  | [] =>
      match WatchedFileHandler log_filename l with
      | (IOError errno, l) => (IOError errno, l)
      | (Done _, l) =>
          let l := addHandler filehandler l in
          match WatchedFileHandler logstash_filename l with
          | (IOError errno, l) => (IOError errno, l)
          | (Done _, l) =>
              let l := addHandler logstash_handler l in
              (Done tt, addHandler consolehandler l)
          end
      end
  end.

(** [while len(logger.handlers) > 0: h = logger.handlers[0];
    logger.removeHandler(h)], one unit of fuel per turn; [None] when
    the fuel ran out with the loop still going. *)
Fixpoint drain (fuel : nat) (l : logging F) : option (logging F) :=
  match handlers l with
  | [] => Some l
  | h :: _ =>
      match fuel with
      | O => None
      | S fuel => drain fuel (removeHandler h l)
      end
  end.

(** [_reloadLogger()] *)
Definition _reloadLogger (fuel : nat) (l : logging F)
  : option (outcome unit * logging F) :=
  let l := info ReloadingLogger l in
  match drain fuel l with
  | None => None
  | Some l =>
      Some match _getLogger l with
           | (Done _, l) => (Done tt, info ReloadedLogger l)
           | (IOError errno, l) => (IOError errno, l)
           end
  end.
End Methods.

(** A simulated file system: successive openings are answered from a
    list, and succeed when no answer is left; the names of the files
    opened are kept. *)
Record sim_disk := SimDisk {
  answers : list (os_result unit);
  opened : list string;
}.

#[global] Instance sim_disk_env : Disk sim_disk := {|
  open_append filename d :=
    match answers d with
    | r :: rest => (r, SimDisk rest (opened d ++ [filename]))
    | [] => (Success tt, SimDisk [] (opened d ++ [filename]))
    end;
|}.

(** A logger left with a stale handler, on a disk that answers the
    openings with [answers]. *)
Definition stale : Handler :=
  {| h_stream := File "/tmp/old.log"; h_formatter := plain; h_level := INFO |}.

Definition running (answers : list (os_result unit)) : logging sim_disk :=
  Logging [stale; consolehandler] (SimDisk answers []) [].

(** A logger that has no handler yet. *)
Definition bare (answers : list (os_result unit)) : logging sim_disk :=
  Logging [] (SimDisk answers []) [].

End Logger.

(** ** The environment *)

Class Env (W : Type) := {
  (** [psutil.NUM_CPUS] *)
  NUM_CPUS : Z;
  (** [SerialWorker], the default of the [klass] option *)
  SerialWorker : pyval;
  (** [util.import_class] *)
  import_class : string → result pyval;
  (** [Worker.divide(jobs, count)] *)
  divide : list string → pyval → result (list (list string));
  os_getcwd : W → string;
  os_fork : W → os_result Z * W;
  os_wait : W → os_result (Z * Z) * W;
  os_waitpid : Z → Z → W → os_result (Z * Z) * W;
  os_kill : Z → Z → W → os_result unit * W;
  os_chdir : string → W → os_result unit * W;
  (** opening a log file for appending, as [WatchedFileHandler] does
      when it is built *)
  os_open_append : string → W → os_result unit * W;
  (** entering the context manager [Worker.sandbox(path)] *)
  sandbox_enter : string → W → result unit * W;
  (** [unit.run()] of the worker built in a child *)
  worker_run : pyval → list string → string → gmap string pyval → W → result unit * W;
}.

(** The log files of [_getLogger] are opened on that system. *)
#[global] Instance env_disk {W : Type} `{!Env W} : Logger.Disk W :=
  {| Logger.open_append := os_open_append |}.

(** ** Machine states and the monad of methods *)

Record machine (W : Type) := Machine {
  self : ForkingWorker;
  world : W;
  trace : list event;
}.
Arguments Machine {W} self world trace.
Arguments self {W} m.
Arguments world {W} m.
Arguments trace {W} m.

Section Supervisor.
Context {W : Type} `{!Env W}.

Definition M (A : Type) : Type := machine W → result A * machine W.

Definition ret {A} (a : A) : M A := λ m, (Ok a, m).

Definition bind {A B} (c : M A) (k : A → M B) : M B :=
  λ m, match c m with
       | (Ok a, m') => k a m'
       | (Raise e, m') => (Raise e, m')
       end.

#[global] Instance M_ret : MRet M := @ret.
#[global] Instance M_bind : MBind M := λ A B k c, bind c k.

Definition raise {A} (e : exn) : M A := λ m, (Raise e, m).

Definition lift {A} (r : result A) : M A := λ m, (r, m).

Definition emit (e : event) : M unit :=
  λ m, (Ok tt, Machine (self m) (world m) (trace m ++ [e])).

Definition get_self : M ForkingWorker := λ m, (Ok (self m), m).

Definition update_self (f : ForkingWorker → ForkingWorker) : M unit :=
  λ m, (Ok tt, Machine (f (self m)) (world m) (trace m)).

(** A system call: a failure is raised as [OSError]. *)
Definition os {A} (call : W → os_result A * W) : M A :=
  λ m, match call (world m) with
       | (Success a, w) => (Ok a, Machine (self m) w (trace m))
       | (Failure errno, w) => (Raise (OSError errno), Machine (self m) w (trace m))
       end.

(** A file opened by the [logging] library: a failure is raised as
    [IOError]. *)
Definition io {A} (call : W → os_result A * W) : M A :=
  λ m, match call (world m) with
       | (Success a, w) => (Ok a, Machine (self m) w (trace m))
       | (Failure errno, w) => (Raise (IOError errno), Machine (self m) w (trace m))
       end.

(** A call into another module. *)
Definition ext {A} (call : W → result A * W) : M A :=
  λ m, let '(r, w) := call (world m) in (r, Machine (self m) w (trace m)).

Definition getcwd : M string := λ m, (Ok (os_getcwd (world m)), m).

(** [try: body except ...: handler]; [handler e = None] when no clause
    matches [e]. *)
Definition try_except {A} (body : M A) (handler : exn → option (M A)) : M A :=
  λ m, match body m with
       | (Ok a, m') => (Ok a, m')
       | (Raise e, m') =>
           match handler e with
           | Some h => h m'
           | None => (Raise e, m')
           end
       end.

(** [try: body finally: fin]: an exception of [fin] replaces the
    outcome of [body]. *)
Definition try_finally {A} (body : M A) (fin : M unit) : M A :=
  λ m, let '(r, m') := body m in
       match fin m' with
       | (Ok _, m'') => (r, m'')
       | (Raise e, m'') => (Raise e, m'')
       end.

Fixpoint for_each {A} (l : list A) (body : A → M unit) : M unit :=
  match l with
  | [] => mret tt
  | x :: rest => body x;; for_each rest body
  end.

(** ** [ForkingWorker.__init__] *)

(** [d.pop(key, default)] on the keyword options. *)
Definition pop_default (key : string) (d : pyval) (kw : gmap string pyval)
  : pyval * gmap string pyval :=
  (default d (kw !! key), delete key kw).

Definition __init__ (base : Worker) : ForkingWorker :=
  let '(k, kw) := pop_default "klass" SerialWorker (w_kwargs base) in
  let '(n, kw) := pop_default "workers" (VInt 0) kw in
  {| queues := w_queues base; client := w_client base; kwargs := kw;
     resume := w_resume base;
     klass := k;
     count := py_or n (VInt NUM_CPUS);
     sandboxes := ∅;
     shutdown := false |}.

(** ** [ForkingWorker.stop] *)

(** [os.kill(cpid, sig)] *)
Definition kill (cpid sig : Z) : M unit :=
  os (os_kill cpid sig);; emit (Signalled cpid sig).

(** [self.sandboxes.pop(pid, None)] *)
Definition pop_or_none (pid : Z) : M unit :=
  update_self (set_sandboxes (delete pid)).

(** One turn of the second loop of [stop].  [pid] is the local variable
    of that name as the previous turns left it: [None] while it is
    unbound.  The [try] part raises nothing but [OSError], which the
    [except] clause handles, so the [finally] clause runs after it. *)
Definition reap (cpid : Z) (pid : option Z) : M (option Z) :=
  pid ← try_except
          (emit (Log INFO (WaitingFor cpid));;
           '(p, status) ← os (os_waitpid cpid 0);
           emit (Reaped p status);;
           emit (Log WARN (StoppedWith p (status ≫ 8)));;
           mret (Some p))
          (λ e, match e with
                | OSError _ => Some (emit (Log ERROR (ErrorWaiting cpid));; mret pid)
                | _ => None
                end);
  match pid with
  | Some p => pop_or_none p;; mret pid
  | None => raise (UnboundLocalError "pid")
  end.

Fixpoint reap_all (cpids : list Z) (pid : option Z) : M (option Z) :=
  match cpids with
  | [] => mret pid
  | cpid :: rest => pid ← reap cpid pid; reap_all rest pid
  end.

(** [stop(self, sig)]: both loops go over [self.sandboxes.keys()], a
    list built when the loop starts. *)
Definition stop (sig : Z) : M unit :=
  s ← get_self;
  for_each (keys (sandboxes s))
    (λ cpid, emit (Log WARN (Stopping cpid));; kill cpid sig);;
  s ← get_self;
  reap_all (keys (sandboxes s)) None;;
  mret tt.

(** ** [ForkingWorker.spawn] *)

(** The worker unit [klass(queues, client, **options)]. *)
Record unit_of_work := Unit {
  u_klass : pyval;
  u_queues : list string;
  u_client : string;
  u_options : gmap string pyval;
}.

(** [options] are the keyword arguments of the call; [copy.update]
    lets them override the stored ones. *)
Definition spawn (options : gmap string pyval) : M unit_of_work :=
  s ← get_self;
  let copy := options ∪ kwargs s in
  k ← match klass s with
      | VStr name =>
          k ← lift (import_class name);
          update_self (set_klass k);;
          mret k
      | k => mret k
      end;
  s ← get_self;
  emit (WorkerUnit k (queues s) (client s) copy);;
  mret (Unit k (queues s) (client s) copy).

(** ** [ForkingWorker.run] *)

(** The child branch of both forks: [options] is evaluated after the
    [chdir], [exit(0)] raises [SystemExit]. *)
Definition child (sandbox : string) (options : M (gmap string pyval)) : M unit :=
  ext (sandbox_enter sandbox);;
  emit (EnterSandbox sandbox);;
  try_finally
    (os (os_chdir sandbox);;
     emit (Chdir sandbox);;
     opts ← options;
     u ← spawn opts;
     ext (worker_run (u_klass u) (u_queues u) (u_client u) (u_options u));;
     raise (SystemExit 0))
    (emit (LeaveSandbox sandbox)).

(** [range(count)] *)
Definition py_range (v : pyval) : result (list nat) :=
  match v with
  | VInt n => Ok (seq 0 (Z.to_nat n))
  | VBool b => Ok (seq 0 (if b then 1 else 0))
  | _ => Raise TypeError
  end.

(** Body of the start-up loop. *)
Definition start (resume : list (list string)) (index : nat) : M unit :=
  cwd ← getcwd;
  let sandbox := sandbox_path cwd index in
  cpid ← os os_fork;
  if truthy (VInt cpid) then
    emit (Forked cpid);;
    emit (Log INFO (SpawnedWorker cpid));;
    update_self (set_sandboxes <[cpid := sandbox]>)
  else
    child sandbox
      (match resume !! index with
       | Some r => mret (<["resume" := VJobs r]> {["sandbox" := VStr sandbox]})
       | None => raise IndexError
       end).

(** [self.sandboxes.pop(pid)] *)
Definition pop (pid : Z) : M string :=
  s ← get_self;
  match sandboxes s !! pid with
  | Some sandbox => update_self (set_sandboxes (delete pid));; mret sandbox
  | None => raise (KeyError pid)
  end.

(** Body of the [while] loop, with its [try ... except OSError]. *)
Definition wait_body : M unit :=
  try_except
    ('(pid, status) ← os os_wait;
     emit (Reaped pid status);;
     emit (Log WARN (WorkerDied pid (status ≫ 8) (Z.land status 255)));;
     sandbox ← pop pid;
     cpid ← os os_fork;
     if truthy (VInt cpid) then
       emit (Forked cpid);;
       emit (Log INFO (SpawnedReplacement cpid));;
       update_self (set_sandboxes <[cpid := sandbox]>)
     else
       child sandbox (mret {["sandbox" := VStr sandbox]}))
    (λ e, match e with
          | OSError errno =>
              Some (if decide (errno = EINTR) then mret tt else raise e)
          | _ => None
          end).

(** [while not self.shutdown: ...]; [None] when the fuel ran out with
    the loop still going. *)
Fixpoint wait_loop (fuel : nat) : M (option unit) :=
  s ← get_self;
  if shutdown s then mret (Some tt)
  else match fuel with
       | O => mret None
       | S fuel => wait_body;; wait_loop fuel
       end.

(** [try: <loop> finally: self.stop(signal.SIGKILL)].  The [finally]
    clause runs once the loop is left, by its condition or by an
    exception. *)
Definition guarded_loop (fuel : nat) : M (option unit) :=
  λ m, match wait_loop fuel m with
       | (Ok None, m') => (Ok None, m')
       | (r, m') =>
           match stop SIGKILL m' with
           | (Ok _, m'') => (r, m'')
           | (Raise e, m'') => (Raise e, m'')
           end
       end.

(** [self.signals(...)], a method of [Worker], is recorded as the
    [Handlers] event; [self.divide] is the [divide] of the environment;
    [fuel] bounds the number of turns of the wait loop. *)
Definition run (fuel : nat) : M (option unit) :=
  emit (Handlers [SIGTERM; SIGINT; SIGQUIT; SIGHUP]);;
  s ← get_self;
  resume ← lift (divide (resume s) (count s));
  indices ← lift (py_range (count s));
  for_each indices (start resume);;
  guarded_loop fuel.

(** ** [_reloadLogger] and [ForkingWorker.handler] *)

(** [_reloadLogger] of [qless/__init__.py], as the supervisor sees it.
    The supervisor never reads the handlers of the logger, and the loop
    of [_reloadLogger] removes them all, whatever they were: [_getLogger]
    then finds a logger without handlers and builds its three, opening
    the two log files in turn; a file that cannot be opened ends the
    reload with [IOError].  [LoggerReset] is written once the handlers
    are rebuilt.  Outcome and file system are those of
    [Logger._reloadLogger] (lemma [reloadLogger_agrees]). *)
Definition _reloadLogger : M unit :=
  emit (Log INFO ReloadingLogger);;
  io (os_open_append Logger.log_filename);;
  io (os_open_append Logger.logstash_filename);;
  emit LoggerReset;;
  emit (Log INFO ReloadedLogger).

(** [handler(self, signum, frame)]; [frame] is not used. *)
Definition handler (signum : Z) : M unit :=
  if decide (signum ∈ [SIGTERM; SIGINT; SIGQUIT; SIGHUP]) then
    s ← get_self;
    for_each (keys (sandboxes s)) (λ cpid, kill cpid signum);;
    if decide (signum = SIGHUP) then _reloadLogger
    else raise (SystemExit 0)
  else mret tt.

End Supervisor.

Arguments M W A : clear implicits.

(** ** Reading a log *)

(** What the loop writes when [wait] reports a death. *)
Definition obituary (pid status : Z) : list event :=
  [Reaped pid status; Log WARN (WorkerDied pid (status ≫ 8) (Z.land status 255))].

(** Pids the parent got back from [fork], in order. *)
Definition forked (t : list event) : list Z :=
  omap (λ e, match e with Forked cpid => Some cpid | _ => None end) t.

(** Signals sent to [cpid], in order. *)
Definition signals_to (cpid : Z) (t : list event) : list Z :=
  omap (λ e, match e with
             | Signalled c sig => if decide (c = cpid) then Some sig else None
             | _ => None
             end) t.

(** Pids returned by [wait] and [waitpid], in order. *)
Definition reaped (t : list event) : list Z :=
  omap (λ e, match e with Reaped pid _ => Some pid | _ => None end) t.

(** Children whose [waitpid] failure was logged by [stop]. *)
Definition wait_errors (t : list event) : list Z :=
  omap (λ e, match e with Log ERROR (ErrorWaiting cpid) => Some cpid | _ => None end) t.

(** Number of times the logger was rebuilt. *)
Definition reloads (t : list event) : nat :=
  length (omap (λ e, match e with LoggerReset => Some tt | _ => None end) t).

(** Worker units built (in a child), with their keyword options. *)
Definition units (t : list event) : list (gmap string pyval) :=
  omap (λ e, match e with WorkerUnit _ _ _ options => Some options | _ => None end) t.

Section Calls.
Context {W : Type} `{!Env W}.

(** The system answers every [kill] of a loop over [cpids] with
    success; [after_kills] is the system after the loop. *)
Fixpoint kills_succeed (cpids : list Z) (sig : Z) (w : W) : bool :=
  match cpids with
  | [] => true
  | cpid :: rest =>
      match os_kill cpid sig w with
      | (Success _, w') => kills_succeed rest sig w'
      | (Failure _, _) => false
      end
  end.

Fixpoint after_kills (cpids : list Z) (sig : Z) (w : W) : W :=
  match cpids with
  | [] => w
  | cpid :: rest => after_kills rest sig (os_kill cpid sig w).2
  end.

(** The system answers every [waitpid(cpid, 0)] of a loop over [cpids]
    with the exit of [cpid]. *)
Fixpoint waits_succeed (cpids : list Z) (w : W) : bool :=
  match cpids with
  | [] => true
  | cpid :: rest =>
      match os_waitpid cpid 0 w with
      | (Success (pid, _), w') => bool_decide (pid = cpid) && waits_succeed rest w'
      | (Failure _, _) => false
      end
  end.

(** The system opens the two log files of [_getLogger] in turn; the
    second one is not tried when the first one fails. *)
Definition logs_open (w : W) : os_result unit * W :=
  match os_open_append Logger.log_filename w with
  | (Success _, w') => os_open_append Logger.logstash_filename w'
  | (Failure errno, w') => (Failure errno, w')
  end.

(** [c] keeps the property [I] of the instance, however it ends. *)
Definition keeps {A} (I : ForkingWorker → Prop) (c : M W A) : Prop :=
  ∀ m, I (self m) → I (self (c m).2).

(** [I] does not look at the class of the workers. *)
Definition klass_blind (I : ForkingWorker → Prop) : Prop :=
  ∀ k s, I s → I (set_klass k s).

(** [I] survives the removal of an entry of the sandbox record. *)
Definition delete_closed (I : ForkingWorker → Prop) : Prop :=
  ∀ pid s, I s → I (set_sandboxes (delete pid) s).

(** [I] does not look at the sandbox record. *)
Definition sandbox_blind (I : ForkingWorker → Prop) : Prop :=
  ∀ f s, I s → I (set_sandboxes f s).

(** Every sandbox of the record satisfies [P]. *)
Definition slots_only (P : string → Prop) (s : ForkingWorker) : Prop :=
  ∀ pid sandbox, sandboxes s !! pid = Some sandbox → P sandbox.

(** [c] never returns: it always ends with an exception. *)
Definition raises {A} (c : M W A) : Prop := ∀ m, ∃ e, (c m).1 = Raise e.

(** The class of the workers is a class object, or a name that
    [util.import_class] resolves. *)
Definition resolvable (s : ForkingWorker) : bool :=
  match klass s with
  | VStr name => match import_class name with Ok _ => true | Raise _ => false end
  | _ => true
  end.
End Calls.

(** ** More answers of the system *)

#[global] Instance os_result_eq_dec {A} `{EqDecision A} : EqDecision (os_result A).
Proof. solve_decision. Defined.

(** The events of a start-up that forks [pids]. *)
Definition births (pids : list Z) : list event :=
  concat ((λ cpid, [Forked cpid; Log INFO (SpawnedWorker cpid)]) <$> pids).

Section Answers.
Context {W : Type} `{!Env W}.

(** The children whose [waitpid(cpid, 0)] fails in a loop over [cpids]. *)
Fixpoint failed_waits (cpids : list Z) (w : W) : list Z :=
  match cpids with
  | [] => []
  | cpid :: rest =>
      match os_waitpid cpid 0 w with
      | (Success _, w') => failed_waits rest w'
      | (Failure _, w') => cpid :: failed_waits rest w'
      end
  end.

(** Every [waitpid(cpid, 0)] of the loop that returns, returns [cpid]. *)
Fixpoint waits_honest (cpids : list Z) (w : W) : bool :=
  match cpids with
  | [] => true
  | cpid :: rest =>
      match os_waitpid cpid 0 w with
      | (Success (pid, _), w') => bool_decide (pid = cpid) && waits_honest rest w'
      | (Failure _, w') => waits_honest rest w'
      end
  end.

(** The first [waitpid] of the loop, if any, returns. *)
Definition first_wait_returns (cpids : list Z) (w : W) : bool :=
  match cpids with
  | [] => true
  | cpid :: _ =>
      match os_waitpid cpid 0 w with
      | (Success _, _) => true
      | (Failure _, _) => false
      end
  end.

(** Successive [fork] calls are answered by [answers]; [after_forks] is
    the system after that many calls. *)
Fixpoint forks_answer (answers : list (os_result Z)) (w : W) : bool :=
  match answers with
  | [] => true
  | r :: rest => bool_decide ((os_fork w).1 = r) && forks_answer rest (os_fork w).2
  end.

Fixpoint after_forks (n : nat) (w : W) : W :=
  match n with
  | O => w
  | S n => after_forks n (os_fork w).2
  end.

(** The record after the parent has stored the children [pids] of the
    slots [indices], in that order. *)
Definition recorded (cwd : string) (pids : list Z) (indices : list nat)
    (d : gmap Z string) : gmap Z string :=
  foldl (λ d ci, <[ci.1 := sandbox_path cwd ci.2]> d) d (zip pids indices).

(** The class a worker is built with: the stored one, or the one its
    name resolves to. *)
Definition resolved (s : ForkingWorker) : pyval :=
  match klass s with
  | VStr name => match import_class name with Ok k => k | Raise _ => VStr name end
  | k => k
  end.
End Answers.

(** ** A simulated operating system

    A concrete environment on which the methods can be run.  Successive
    calls of [fork], [wait], [kill] and [waitpid] are answered from four
    lists, the openings of a log file from a fifth one.  With no answer
    left, [fork] fails with [EAGAIN] and [wait]
    with [ECHILD] (no child to wait for), [kill] succeeds and
    [waitpid(cpid, 0)] returns [cpid] with status 0.  An answer to
    [waitpid] is the exit status of the child waited for, or an error. *)

Record sim := Sim {
  sim_cwd : string;
  sim_forks : list (os_result Z);
  sim_waits : list (os_result (Z * Z));
  sim_kills : list (os_result unit);
  sim_waitpids : list (os_result Z);
  sim_opens : list (os_result unit);
}.

Definition sim_fork (w : sim) : os_result Z * sim :=
  match sim_forks w with
  | r :: rest => (r, Sim (sim_cwd w) rest (sim_waits w) (sim_kills w) (sim_waitpids w) (sim_opens w))
  | [] => (Failure EAGAIN, w)
  end.

Definition sim_wait (w : sim) : os_result (Z * Z) * sim :=
  match sim_waits w with
  | r :: rest => (r, Sim (sim_cwd w) (sim_forks w) rest (sim_kills w) (sim_waitpids w) (sim_opens w))
  | [] => (Failure ECHILD, w)
  end.

Definition sim_kill (w : sim) : os_result unit * sim :=
  match sim_kills w with
  | r :: rest => (r, Sim (sim_cwd w) (sim_forks w) (sim_waits w) rest (sim_waitpids w) (sim_opens w))
  | [] => (Success tt, w)
  end.

Definition sim_waitpid (cpid : Z) (w : sim) : os_result (Z * Z) * sim :=
  match sim_waitpids w with
  | r :: rest =>
      (match r with
       | Success status => Success (cpid, status)
       | Failure errno => Failure errno
       end,
       Sim (sim_cwd w) (sim_forks w) (sim_waits w) (sim_kills w) rest (sim_opens w))
  | [] => (Success (cpid, 0), w)
  end.

(** With no answer left, a log file is opened. *)
Definition sim_open (w : sim) : os_result unit * sim :=
  match sim_opens w with
  | r :: rest =>
      (r, Sim (sim_cwd w) (sim_forks w) (sim_waits w) (sim_kills w) (sim_waitpids w) rest)
  | [] => (Success tt, w)
  end.

(** Modelled from the spec: [Worker.divide], which is defined in
    [qless/workers/__init__.py].  It splits the jobs into exactly [n]
    contiguous groups, disjoint and covering the input, the last ones
    empty when there are not enough jobs. *)
Definition deal (jobs : list string) (n : nat) : list (list string) :=
  let width := ((length jobs + n - 1) / n)%nat in
  (λ i, take width (drop (i * width) jobs)) <$> seq 0 n.

#[global] Instance sim_env : Env sim := {|
  NUM_CPUS := 4;
  SerialWorker := VClass "SerialWorker";
  import_class name := Ok (VClass name);
  divide jobs n :=
    match n with
    | VInt n => Ok (deal jobs (Z.to_nat n))
    | _ => Raise TypeError
    end;
  os_getcwd := sim_cwd;
  os_fork := sim_fork;
  os_wait := sim_wait;
  os_waitpid cpid _ := sim_waitpid cpid;
  os_kill _ _ := sim_kill;
  os_chdir _ w := (Success tt, w);
  os_open_append _ := sim_open;
  sandbox_enter _ w := (Ok tt, w);
  worker_run _ _ _ _ w := (Ok tt, w);
|}.

(** A supervisor in [/srv/app] started with options
    [workers=3, resume=[...]], and the same with three children
    tracked. *)
Definition base : Worker := {|
  w_queues := ["mail"];
  w_client := "redis://localhost:6379";
  w_kwargs := <["workers" := VInt 3]> {["resume" := VJobs ["j1"; "j2"; "j3"; "j4"]]};
  w_resume := ["j1"; "j2"; "j3"; "j4"];
|}.

Definition pool : ForkingWorker :=
  set_sandboxes
    (λ _, <[100 := sandbox_path "/srv/app" 0]>
            (<[101 := sandbox_path "/srv/app" 1]>
               {[102 := sandbox_path "/srv/app" 2]}))
    (__init__ base).

Definition sys (forks : list (os_result Z)) (waits : list (os_result (Z * Z)))
    (kills : list (os_result unit)) (waitpids : list (os_result Z)) : sim :=
  Sim "/srv/app" forks waits kills waitpids [].

Definition booted (forks : list (os_result Z)) (waits : list (os_result (Z * Z)))
    (kills : list (os_result unit)) (waitpids : list (os_result Z)) : machine sim :=
  Machine pool (sys forks waits kills waitpids) [].

(** ** Scenarios on the simulated system *)

(** A [wait] event for pid 555, which the pool never forked. *)
Definition stray : machine sim := booted [Success 103] [Success (555, 0)] [] [].

(** A [wait] interrupted by a signal. *)
Definition interrupted : machine sim := booted [] [Failure EINTR] [] [].

(** The child of slot 1 exits with code 1; [fork] then returns 103. *)
Definition bereaved : machine sim := booted [Success 103] [Success (101, 256)] [] [].

(** The child of slot 1 exits and the replacement cannot be forked
    ([EAGAIN]); of the two [waitpid] calls of the shutdown the second one
    is interrupted ([EINTR]). *)
Definition forkless : machine sim :=
  booted [Failure EAGAIN] [Success (101, 256)] [] [Success 9; Failure EINTR].

(** The very first [waitpid] of a shutdown fails ([ECHILD]). *)
Definition unwaitable : machine sim := booted [] [] [] [Failure ECHILD].

(** The pool in a system where every call succeeds. *)
Definition quiet : machine sim := booted [] [] [] [].

(** The child of slot 1 exits and [fork] returns 0: the machine is the
    replacement child. *)
Definition reborn : machine sim := booted [Success 0] [Success (101, 256)] [] [].

(** The start-up loop has forked the child of slot 0; the fork of slot 1
    returns 0: the machine is the first child of slot 1. *)
Definition newborn : machine sim :=
  Machine (set_sandboxes (λ _, {[100 := sandbox_path "/srv/app" 0]}) (__init__ base))
    (sys [Success 0] [] [] []) [].

(** A start from scratch: three slots, then the child of slot 1 dies and
    is replaced. *)
Definition fresh : machine sim :=
  Machine (__init__ base)
    (sys [Success 100; Success 101; Success 102; Success 103] [Success (101, 256)] [] [])
    [].

(** The system refuses the second [kill] of a pass ([ESRCH]). *)
Definition unkillable : machine sim := booted [] [] [Success tt; Failure ESRCH] [].

(** Of the three [waitpid] calls of a shutdown the second one is
    interrupted. *)
Definition half_waited : machine sim := booted [] [] [] [Success 9; Failure EINTR].

(** A [wait] that fails for good: no child to wait for. *)
Definition childless : machine sim := booted [] [Failure ECHILD] [] [].

(** A start from scratch in which the second [fork] fails. *)
Definition starved : machine sim :=
  Machine (__init__ base) (sys [Success 100; Failure EAGAIN] [] [] []) [].

(** A start from scratch in which the second [fork] returns 0: the
    machine becomes the first child of slot 1. *)
Definition secondborn : machine sim :=
  Machine (__init__ base) (sys [Success 100; Success 0] [] [] []) [].

(** The pool when the directory of the log files is gone: no log file
    can be opened ([ENOENT]). *)
Definition logless : machine sim :=
  Machine pool (Sim "/srv/app" [] [] [] [] [Failure Logger.ENOENT]) [].

(** The pool with the class of its workers given by name. *)
Definition named : machine sim :=
  Machine (set_klass (VStr "qless.workers.greenlet.GeventWorker") pool)
    (sys [] [] [] []) [].

(** * Properties *)

Create HintDb keeps.

Section Properties.
Context {W : Type} `{!Env W}.
Implicit Types (m : machine W) (w : W) (I : ForkingWorker → Prop).

#[local] Abbreviation keeps := (@keeps W _) (only parsing).
#[local] Abbreviation raises := (@raises W _) (only parsing).

(** ** Stepping through a method *)

Lemma bind_run {A B} (c : M W A) (k : A → M W B) m :
  (c ≫= k) m =
    match c m with
    | (Ok a, m') => k a m'
    | (Raise e, m') => (Raise e, m')
    end.
Proof. reflexivity. Qed.

Lemma bind_ok {A B} (c : M W A) (k : A → M W B) m a m' :
  c m = (Ok a, m') → (c ≫= k) m = k a m'.
Proof. intros Hc. by rewrite bind_run, Hc. Qed.

Lemma bind_raise {A B} (c : M W A) (k : A → M W B) m e m' :
  c m = (Raise e, m') → (c ≫= k) m = (Raise e, m').
Proof. intros Hc. by rewrite bind_run, Hc. Qed.

Lemma os_success {A} (call : W → os_result A * W) m a w :
  call (world m) = (Success a, w) →
  os call m = (Ok a, Machine (self m) w (trace m)).
Proof. intros Hc. unfold os. by rewrite Hc. Qed.

Lemma os_failure {A} (call : W → os_result A * W) m errno w :
  call (world m) = (Failure errno, w) →
  os call m = (Raise (OSError errno), Machine (self m) w (trace m)).
Proof. intros Hc. unfold os. by rewrite Hc. Qed.

Lemma wait_loop_unfold fuel m :
  wait_loop fuel m =
    if shutdown (self m) then (Ok (Some tt), m)
    else match fuel with
         | O => (Ok None, m)
         | S fuel => (wait_body ≫= λ _, wait_loop fuel) m
         end.
Proof.
  destruct fuel; cbn; unfold mbind, M_bind, bind, get_self;
    by destruct (shutdown (self m)).
Qed.

(** Leaving the loop, by its condition or by an exception, runs
    [stop(SIGKILL)]; an exception of [stop] replaces the outcome of the
    loop. *)
Lemma guarded_loop_runs_stop fuel m r m' :
  wait_loop fuel m = (r, m') →
  r ≠ Ok None →
  guarded_loop fuel m =
    match stop SIGKILL m' with
    | (Ok _, m'') => (r, m'')
    | (Raise e, m'') => (Raise e, m'')
    end.
Proof.
  intros Hloop Hr. unfold guarded_loop. rewrite Hloop.
  by destruct r as [[[]|]|e].
Qed.

(** ** The wait loop: a failing [wait] *)

Lemma wait_body_wait_failure m errno w :
  os_wait (world m) = (Failure errno, w) →
  wait_body m =
    (if decide (errno = EINTR) then Ok tt else Raise (OSError errno),
     Machine (self m) w (trace m)).
Proof.
  intros Hw. unfold wait_body, try_except.
  rewrite (bind_raise _ _ _ _ _ (os_failure _ _ _ _ Hw)).
  by destruct (decide (errno = EINTR)).
Qed.

(** C6. A [wait] that fails with [EINTR] changes neither the instance nor
    the log and the loop goes on to its next turn; a [wait] that fails
    with any other code ends the loop with that [OSError], whatever fuel
    is left, with the instance as it was, and [run] then ends with an
    exception once its [finally] clause has run. *)
Theorem wait_failure_retry_or_fatal m errno w fuel :
  shutdown (self m) = false →
  os_wait (world m) = (Failure errno, w) →
  (errno = EINTR →
     wait_body m = (Ok tt, Machine (self m) w (trace m)) ∧
     wait_loop (S fuel) m = wait_loop fuel (Machine (self m) w (trace m))) ∧
  (errno ≠ EINTR →
     wait_loop (S fuel) m = (Raise (OSError errno), Machine (self m) w (trace m)) ∧
     ∃ e m', guarded_loop (S fuel) m = (Raise e, m')).
Proof.
  intros Hrun Hw. pose proof (wait_body_wait_failure m errno w Hw) as Hbody.
  split; intros Herr.
  - rewrite decide_True in Hbody by done. split; [done|].
    rewrite wait_loop_unfold, Hrun. by rewrite (bind_ok _ _ _ _ _ Hbody).
  - rewrite decide_False in Hbody by done.
    assert (wait_loop (S fuel) m
            = (Raise (OSError errno), Machine (self m) w (trace m))) as Hloop.
    { rewrite wait_loop_unfold, Hrun. by rewrite (bind_raise _ _ _ _ _ Hbody). }
    split; [done|].
    rewrite (guarded_loop_runs_stop _ _ _ _ Hloop) by done.
    destruct (stop SIGKILL _) as [[[]|e] m']; eauto.
Qed.

(** ** The wait loop: a child has exited *)

Lemma emit_run e m :
  emit e m = (Ok tt, Machine (self m) (world m) (trace m ++ [e])).
Proof. reflexivity. Qed.

(** Runs the log lines at the head of a method. *)
Ltac emits :=
  cbv beta iota;
  repeat (rewrite bind_run, emit_run; cbn [self world trace]; cbv beta iota).

Lemma pop_tracked pid sandbox m :
  sandboxes (self m) !! pid = Some sandbox →
  pop pid m =
    (Ok sandbox, Machine (set_sandboxes (delete pid) (self m)) (world m) (trace m)).
Proof.
  intros Hpid. unfold pop. rewrite bind_run. cbn [get_self].
  cbv beta iota. by rewrite Hpid.
Qed.

Lemma pop_unknown pid m :
  sandboxes (self m) !! pid = None → pop pid m = (Raise (KeyError pid), m).
Proof.
  intros Hpid. unfold pop. rewrite bind_run. cbn [get_self].
  cbv beta iota. by rewrite Hpid.
Qed.

Lemma wait_body_unknown m pid status w :
  os_wait (world m) = (Success (pid, status), w) →
  sandboxes (self m) !! pid = None →
  wait_body m =
    (Raise (KeyError pid), Machine (self m) w (trace m ++ obituary pid status)).
Proof.
  intros Hw Hpid. unfold wait_body, try_except.
  rewrite (bind_ok _ _ _ _ _ (os_success _ _ _ _ Hw)).
  emits. rewrite bind_run, pop_unknown by done.
  by rewrite <- app_assoc.
Qed.

Lemma wait_body_respawn m pid status w1 sandbox cpid w2 :
  os_wait (world m) = (Success (pid, status), w1) →
  sandboxes (self m) !! pid = Some sandbox →
  os_fork w1 = (Success cpid, w2) →
  cpid ≠ 0 →
  wait_body m =
    (Ok tt,
     Machine (set_sandboxes (λ d, <[cpid := sandbox]> (delete pid d)) (self m)) w2
       (trace m ++ obituary pid status
                ++ [Forked cpid; Log INFO (SpawnedReplacement cpid)])).
Proof.
  intros Hw Hpid Hf Hc. unfold wait_body, try_except.
  rewrite (bind_ok _ _ _ _ _ (os_success _ _ _ _ Hw)).
  emits. rewrite bind_run, pop_tracked with (sandbox := sandbox) by done.
  cbv beta iota.
  erewrite bind_ok by (apply os_success; cbn [world]; exact Hf).
  cbn [truthy]. replace (cpid =? 0) with false by (symmetry; by apply Z.eqb_neq).
  cbn [negb]. emits.
  unfold update_self. cbn. do 2 f_equal.
  rewrite <- !app_assoc. reflexivity.
Qed.

Lemma forked_app t1 t2 : forked (t1 ++ t2) = forked t1 ++ forked t2.
Proof. apply omap_app. Qed.

Lemma respawn_size (d : gmap Z string) pid sandbox cpid :
  d !! pid = Some sandbox →
  delete pid d !! cpid = None →
  size (<[cpid := sandbox]> (delete pid d)) = size d.
Proof.
  intros Hpid Hfresh.
  rewrite map_size_insert_None by done.
  rewrite map_size_delete_Some by eauto.
  assert (size d ≠ 0)%nat; [|lia].
  apply map_size_non_empty_iff. intros ->. by rewrite lookup_empty in Hpid.
Qed.

(** C1 (as the code has it).  A [wait] event for a pid that is not a key
    of the sandbox record raises [KeyError] out of the loop: nothing is
    forked and the instance is unchanged when it is raised, but the
    [except OSError] clause does not catch it, so the loop ends and the
    [finally] clause runs [stop(SIGKILL)]. *)
Theorem unknown_pid_ends_loop m pid status w fuel :
  shutdown (self m) = false →
  os_wait (world m) = (Success (pid, status), w) →
  sandboxes (self m) !! pid = None →
  let m' := Machine (self m) w (trace m ++ obituary pid status) in
  wait_body m = (Raise (KeyError pid), m') ∧
  wait_loop (S fuel) m = (Raise (KeyError pid), m') ∧
  forked (trace m') = forked (trace m) ∧
  guarded_loop (S fuel) m =
    match stop SIGKILL m' with
    | (Ok _, m'') => (Raise (KeyError pid), m'')
    | (Raise e, m'') => (Raise e, m'')
    end.
Proof.
  intros Hrun Hw Hpid m'.
  pose proof (wait_body_unknown m pid status w Hw Hpid) as Hbody.
  assert (wait_loop (S fuel) m = (Raise (KeyError pid), m')) as Hloop.
  { rewrite wait_loop_unfold, Hrun. by rewrite (bind_raise _ _ _ _ _ Hbody). }
  repeat split; [done|done| |].
  - unfold m'. cbn [trace]. rewrite forked_app. cbn. by rewrite app_nil_r.
  - unfold guarded_loop. by rewrite Hloop.
Qed.

(** C2. While the shutdown flag is false, the exit of a tracked child,
    followed by a [fork] that returns in the parent a pid no other
    tracked child has, leaves exactly one more forked child, recorded
    under the sandbox path of the dead one, and a sandbox record of the
    same size in which every other entry is as before; the loop goes
    on. *)
Theorem respawn_same_sandbox_same_size m pid status w1 sandbox cpid w2 :
  shutdown (self m) = false →
  os_wait (world m) = (Success (pid, status), w1) →
  sandboxes (self m) !! pid = Some sandbox →
  os_fork w1 = (Success cpid, w2) →
  cpid ≠ 0 →
  delete pid (sandboxes (self m)) !! cpid = None →
  ∃ m',
    wait_body m = (Ok tt, m') ∧
    (∀ fuel, wait_loop (S fuel) m = wait_loop fuel m') ∧
    world m' = w2 ∧
    forked (trace m') = forked (trace m) ++ [cpid] ∧
    sandboxes (self m') !! cpid = Some sandbox ∧
    (∀ p, p ≠ cpid → p ≠ pid → sandboxes (self m') !! p = sandboxes (self m) !! p) ∧
    (cpid ≠ pid → sandboxes (self m') !! pid = None) ∧
    size (sandboxes (self m')) = size (sandboxes (self m)) ∧
    shutdown (self m') = false.
Proof.
  intros Hrun Hw Hpid Hf Hc Hfresh.
  pose proof (wait_body_respawn m pid status w1 sandbox cpid w2 Hw Hpid Hf Hc) as Hbody.
  eexists. split; [exact Hbody|]. cbn [self world trace set_sandboxes sandboxes shutdown].
  repeat split.
  - intros fuel. rewrite wait_loop_unfold, Hrun. by rewrite (bind_ok _ _ _ _ _ Hbody).
  - by rewrite !forked_app.
  - apply lookup_insert_eq.
  - intros p Hp1 Hp2. rewrite lookup_insert_ne by done. by apply lookup_delete_ne.
  - intros Hne. rewrite lookup_insert_ne by done. apply lookup_delete_eq.
  - by apply respawn_size.
  - done.
Qed.

(** ** Fanning a signal out *)

Lemma kill_run cpid sig m w :
  os_kill cpid sig (world m) = (Success tt, w) →
  kill cpid sig m = (Ok tt, Machine (self m) w (trace m ++ [Signalled cpid sig])).
Proof.
  intros Hk. unfold kill.
  by rewrite (bind_ok _ _ _ _ _ (os_success _ _ _ _ Hk)).
Qed.

(** A loop whose body logs [pre cpid] and then kills [cpid]. *)
Lemma kill_loop (body : Z → M W unit) (pre : Z → list event) sig :
  (∀ cpid m w,
     os_kill cpid sig (world m) = (Success tt, w) →
     body cpid m =
       (Ok tt, Machine (self m) w (trace m ++ pre cpid ++ [Signalled cpid sig]))) →
  ∀ cpids m,
    kills_succeed cpids sig (world m) = true →
    for_each cpids body m =
      (Ok tt,
       Machine (self m) (after_kills cpids sig (world m))
         (trace m ++ concat ((λ cpid, pre cpid ++ [Signalled cpid sig]) <$> cpids))).
Proof.
  intros Hbody cpids. induction cpids as [|cpid rest IH]; intros m Hk.
  - cbn. rewrite app_nil_r. by destruct m.
  - cbn [kills_succeed] in Hk. cbn [after_kills].
    destruct (os_kill cpid sig (world m)) as [[[]|errno] w] eqn:Hkill; [|done].
    cbn [for_each]. rewrite (bind_ok _ _ _ _ _ (Hbody _ _ _ Hkill)).
    rewrite IH by done. cbn [self world trace fmap list_fmap concat snd].
    by rewrite <- !app_assoc.
Qed.

Lemma signals_to_app cpid t1 t2 :
  signals_to cpid (t1 ++ t2) = signals_to cpid t1 ++ signals_to cpid t2.
Proof. apply omap_app. Qed.

Lemma signals_to_fan_out (pre : Z → list event) sig cpid cpids :
  (∀ c, signals_to cpid (pre c) = []) →
  NoDup cpids →
  signals_to cpid (concat ((λ c, pre c ++ [Signalled c sig]) <$> cpids)) =
    if decide (cpid ∈ cpids) then [sig] else [].
Proof.
  intros Hpre. induction 1 as [|c rest Hc Hnd IH].
  - done.
  - cbn [fmap list_fmap concat]. rewrite !signals_to_app, Hpre, IH.
    cbn. destruct (decide (c = cpid)) as [->|Hne].
    + rewrite (decide_False (P := cpid ∈ rest)) by done.
      rewrite (decide_True (P := cpid ∈ cpid :: rest)); [done|]. apply list_elem_of_here.
    + destruct (decide (cpid ∈ rest)).
      * rewrite (decide_True (P := cpid ∈ c :: rest)); [done|].
        by apply list_elem_of_further.
      * rewrite (decide_False (P := cpid ∈ c :: rest)); [done|].
        rewrite elem_of_cons. intros [?|?]; congruence.
Qed.

Lemma elem_of_keys (d : gmap Z string) cpid : cpid ∈ keys d ↔ is_Some (d !! cpid).
Proof.
  unfold keys. rewrite list_elem_of_fmap. split.
  - intros [[c sandbox] [-> Hin]]. apply elem_of_map_to_list in Hin. eauto.
  - intros [sandbox Hin]. exists (cpid, sandbox). split; [done|].
    by apply elem_of_map_to_list.
Qed.

Lemma NoDup_keys (d : gmap Z string) : NoDup (keys d).
Proof. apply NoDup_fst_map_to_list. Qed.

Lemma for_each_app {A} (l1 l2 : list A) (body : A → M W unit) m :
  for_each (l1 ++ l2) body m =
    match for_each l1 body m with
    | (Ok _, m') => for_each l2 body m'
    | (Raise e, m') => (Raise e, m')
    end.
Proof.
  revert m. induction l1 as [|x l1 IH]; intros m; [done|].
  cbn [app for_each]. rewrite !bind_run.
  destruct (body x m) as [[[]|e] m']; [apply IH|done].
Qed.

Lemma kill_fails cpid sig m errno w :
  os_kill cpid sig (world m) = (Failure errno, w) →
  kill cpid sig m = (Raise (OSError errno), Machine (self m) w (trace m)).
Proof.
  intros Hk. unfold kill.
  by rewrite (bind_raise _ _ _ _ _ (os_failure _ _ _ _ Hk)).
Qed.

(** A loop of kills that gets through [pre] and fails on [cpid]. *)
Lemma kill_loop_failure (body : Z → M W unit) (pre : Z → list event) sig
    before cpid after m errno w :
  (∀ c m0 w0,
     os_kill c sig (world m0) = (Success tt, w0) →
     body c m0 = (Ok tt, Machine (self m0) w0 (trace m0 ++ pre c ++ [Signalled c sig]))) →
  (∀ c m0 w0 e,
     os_kill c sig (world m0) = (Failure e, w0) →
     body c m0 = (Raise (OSError e), Machine (self m0) w0 (trace m0 ++ pre c))) →
  kills_succeed before sig (world m) = true →
  os_kill cpid sig (after_kills before sig (world m)) = (Failure errno, w) →
  for_each (before ++ cpid :: after) body m =
    (Raise (OSError errno),
     Machine (self m) w
       (trace m ++ concat ((λ c, pre c ++ [Signalled c sig]) <$> before) ++ pre cpid)).
Proof.
  intros Hok Hfail Hk Hc. rewrite for_each_app.
  rewrite (kill_loop body pre sig Hok before m Hk).
  cbn [for_each]. rewrite bind_run.
  erewrite Hfail by (cbn [world]; exact Hc). cbn [self trace].
  by rewrite <- app_assoc.
Qed.

Lemma NoDup_keys_prefix (d : gmap Z string) before cpid after :
  keys d = before ++ cpid :: after → NoDup before ∧ cpid ∉ before.
Proof.
  intros Hkeys. pose proof (NoDup_keys d) as Hnd. rewrite Hkeys in Hnd.
  apply NoDup_app in Hnd as (Hb & Hdisj & _). split; [done|].
  intros Hin. apply (Hdisj cpid Hin). apply list_elem_of_here.
Qed.

(** ** [_reloadLogger], from the supervisor *)

Lemma reloadLogger_run m :
  _reloadLogger m =
    match logs_open (world m) with
    | (Success _, w) =>
        (Ok tt,
         Machine (self m) w
           (trace m ++ [Log INFO ReloadingLogger; LoggerReset; Log INFO ReloadedLogger]))
    | (Failure errno, w) =>
        (Raise (IOError errno), Machine (self m) w (trace m ++ [Log INFO ReloadingLogger]))
    end.
Proof.
  unfold _reloadLogger, logs_open. emits. rewrite bind_run. unfold io at 1. cbn [world].
  destruct (os_open_append Logger.log_filename (world m)) as [[[]|errno] w1]; [|done].
  cbn [self world trace]. cbv beta iota. rewrite bind_run. unfold io. cbn [world].
  destruct (os_open_append Logger.logstash_filename w1) as [[[]|errno] w2]; [|done].
  cbn [self world trace]. cbv beta iota. emits. rewrite emit_run. cbn [self world trace].
  by rewrite <- !app_assoc.
Qed.

(** ** [handler] *)

(** C4 (as the code has it).  One of the four signals reaches the
    handler, which sends it to the tracked children one after the other.
    When the system accepts every [kill], each tracked child has been
    sent that signal exactly once and no other pid anything, by as many
    [kill] calls; the instance (shutdown flag included) is as it was.  On
    [SIGTERM], [SIGINT] and [SIGQUIT] the handler then ends the parent
    with [exit(0)], the logger left alone.  On [SIGHUP] it reloads the
    logger: when both log files are opened the logger is rebuilt once and
    the handler returns; when one cannot be opened the handler ends with
    that [IOError], the logger not rebuilt.  When the system refuses a
    [kill], the handler ends at once with that [OSError]: the children
    before the refused one have been sent the signal once, the refused
    one and those after it nothing, the logger is not reloaded and
    [exit(0)] is not reached. *)
Theorem handler_fans_out m signum :
  signum ∈ [SIGTERM; SIGINT; SIGQUIT; SIGHUP] →
  let cpids := keys (sandboxes (self m)) in
  (kills_succeed cpids signum (world m) = true →
   let w := after_kills cpids signum (world m) in
   ∃ r m' sent,
     handler signum m = (r, m') ∧
     self m' = self m ∧
     trace m' = trace m ++ sent ∧
     (∀ cpid, signals_to cpid sent =
                if decide (is_Some (sandboxes (self m) !! cpid)) then [signum] else []) ∧
     forked sent = [] ∧ reaped sent = [] ∧
     (signum ≠ SIGHUP →
        r = Raise (SystemExit 0) ∧ world m' = w ∧ reloads sent = 0%nat) ∧
     (signum = SIGHUP →
        ∀ w', logs_open w = (Success tt, w') →
              r = Ok tt ∧ world m' = w' ∧ reloads sent = 1%nat) ∧
     (signum = SIGHUP →
        ∀ errno w', logs_open w = (Failure errno, w') →
                    r = Raise (IOError errno) ∧ world m' = w' ∧ reloads sent = 0%nat)) ∧
  (∀ before cpid after errno w,
     cpids = before ++ cpid :: after →
     kills_succeed before signum (world m) = true →
     os_kill cpid signum (after_kills before signum (world m)) = (Failure errno, w) →
     ∃ m',
       handler signum m = (Raise (OSError errno), m') ∧
       self m' = self m ∧
       world m' = w ∧
       reloads (trace m') = reloads (trace m) ∧
       ∀ c, signals_to c (trace m') =
              signals_to c (trace m) ++ if decide (c ∈ before) then [signum] else []).
Proof.
  intros Hsig cpids. split.
  - intros Hk w. unfold handler. rewrite decide_True by done.
    rewrite bind_run. cbn [get_self]. cbv beta iota.
    pose proof (kill_loop (λ cpid, kill cpid signum) (λ _, []) signum
                  (λ cpid m0 w, kill_run cpid signum m0 w) _ m Hk) as Hloop.
    rewrite (bind_ok _ _ _ _ _ Hloop). fold cpids. fold w.
    set (sent := concat ((λ cpid, [] ++ [Signalled cpid signum]) <$> cpids)).
    assert (∀ cpid, signals_to cpid sent =
              if decide (is_Some (sandboxes (self m) !! cpid)) then [signum] else []) as Hfan.
    { intros cpid. unfold sent.
      rewrite (signals_to_fan_out (λ _, [])) by (done || apply NoDup_keys).
      destruct (decide (cpid ∈ cpids)) as [Hin|Hin]; unfold cpids in Hin;
        rewrite elem_of_keys in Hin.
      - by rewrite decide_True.
      - by rewrite decide_False. }
    assert (reloads sent = 0%nat ∧ forked sent = [] ∧ reaped sent = []) as (Hr & Hf & Hp).
    { unfold sent. clear. induction cpids as [|c rest IH]; [done|].
      cbn [fmap list_fmap concat app]. unfold reloads, forked, reaped in *. cbn.
      destruct IH as (? & ? & ?). done. }
    destruct (decide (signum = SIGHUP)) as [->|Hne].
    + rewrite reloadLogger_run. cbn [self world trace].
      destruct (logs_open w) as [[[]|errno] w'] eqn:Hopen.
      * eexists _, _, (sent ++ [Log INFO ReloadingLogger; LoggerReset; Log INFO ReloadedLogger]).
        split; [reflexivity|]. cbn [self world trace].
        split; [done|]. split; [by rewrite <- !app_assoc|].
        split; [intros cpid; rewrite signals_to_app, Hfan; cbn; by rewrite app_nil_r|].
        split; [unfold forked in *; by rewrite omap_app, Hf|].
        split; [unfold reaped in *; by rewrite omap_app, Hp|].
        split; [done|]. split.
        -- intros _ w0 [= <-]. split; [done|]. split; [done|].
           unfold reloads in *. by rewrite omap_app, length_app, Hr.
        -- intros _ errno w0 [=].
      * eexists _, _, (sent ++ [Log INFO ReloadingLogger]).
        split; [reflexivity|]. cbn [self world trace].
        split; [done|]. split; [by rewrite <- !app_assoc|].
        split; [intros cpid; rewrite signals_to_app, Hfan; cbn; by rewrite app_nil_r|].
        split; [unfold forked in *; by rewrite omap_app, Hf|].
        split; [unfold reaped in *; by rewrite omap_app, Hp|].
        split; [done|]. split.
        -- intros _ w0 [=].
        -- intros _ e w0 [= <- <-]. split; [done|]. split; [done|].
           unfold reloads in *. by rewrite omap_app, length_app, Hr.
    + eexists _, _, sent. unfold raise. cbn [self world trace].
      split; [reflexivity|]. do 5 (split; [done|]).
      split; [done|]. split; intros ->; done.
  - intros before cpid after errno w Hkeys Hk Hc. unfold cpids in Hkeys.
    destruct (NoDup_keys_prefix _ _ _ _ Hkeys) as [Hnd _].
    unfold handler. rewrite decide_True by done.
    rewrite bind_run. cbn [get_self]. cbv beta iota. rewrite Hkeys.
    erewrite bind_raise.
    2:{ apply (kill_loop_failure _ (λ _, [])); [| |exact Hk|exact Hc].
        - intros c m0 w0 Hk0. by rewrite (kill_run c signum _ w0).
        - intros c m0 w0 e Hk0. rewrite (kill_fails c signum _ e w0) by done.
          by rewrite app_nil_r. }
    eexists. split; [reflexivity|]. cbn [self world trace].
    split; [done|]. split; [done|]. split.
    + unfold reloads. rewrite !omap_app, !length_app.
      assert (omap (λ e, match e with LoggerReset => Some tt | _ => None end)
                (concat ((λ c, [] ++ [Signalled c signum]) <$> before)) = []) as ->.
      { clear. induction before as [|c l IH]; [done|]. cbn. exact IH. }
      cbn. lia.
    + intros c. rewrite !signals_to_app.
      rewrite (signals_to_fan_out (λ _, [])) by done.
      cbn. by rewrite app_nil_r.
Qed.

(** ** [stop] *)

Lemma reap_success cpid pid m p status w :
  os_waitpid cpid 0 (world m) = (Success (p, status), w) →
  reap cpid pid m =
    (Ok (Some p),
     Machine (set_sandboxes (delete p) (self m)) w
       (trace m ++ [Log INFO (WaitingFor cpid); Reaped p status;
                    Log WARN (StoppedWith p (status ≫ 8))])).
Proof.
  intros Hw. unfold reap, try_except. rewrite bind_run. emits.
  erewrite bind_ok by (apply os_success; cbn [world]; exact Hw).
  emits. cbn. unfold update_self. cbn. by rewrite <- !app_assoc.
Qed.

Lemma reap_failure cpid pid m errno w :
  os_waitpid cpid 0 (world m) = (Failure errno, w) →
  let t := trace m ++ [Log INFO (WaitingFor cpid); Log ERROR (ErrorWaiting cpid)] in
  reap cpid pid m =
    match pid with
    | Some p => (Ok (Some p), Machine (set_sandboxes (delete p) (self m)) w t)
    | None => (Raise (UnboundLocalError "pid"), Machine (self m) w t)
    end.
Proof.
  intros Hw t. unfold reap, try_except. rewrite bind_run. emits.
  erewrite bind_raise by (apply os_failure; cbn [world]; exact Hw).
  emits. unfold t. destruct pid as [p|]; cbn; unfold update_self, raise; cbn;
    by rewrite <- !app_assoc.
Qed.

Lemma reaped_app t1 t2 : reaped (t1 ++ t2) = reaped t1 ++ reaped t2.
Proof. apply omap_app. Qed.

Lemma reaped_kill_loop (pre : Z → list event) sig cpids :
  (∀ c, reaped (pre c) = []) →
  reaped (concat ((λ c, pre c ++ [Signalled c sig]) <$> cpids)) = [].
Proof.
  intros Hpre. induction cpids as [|c rest IH]; [done|].
  cbn [fmap list_fmap concat]. by rewrite !reaped_app, Hpre, IH.
Qed.

Lemma reap_all_success cpids : ∀ pid m,
  waits_succeed cpids (world m) = true →
  ∃ pid' m',
    reap_all cpids pid m = (Ok pid', m') ∧
    sandboxes (self m') = foldl (λ d cpid, delete cpid d) (sandboxes (self m)) cpids ∧
    reaped (trace m') = reaped (trace m) ++ cpids ∧
    (∀ cpid, signals_to cpid (trace m') = signals_to cpid (trace m)).
Proof.
  induction cpids as [|cpid rest IH]; intros pid m Hw.
  - exists pid, m. cbn. by rewrite app_nil_r.
  - cbn [waits_succeed] in Hw.
    destruct (os_waitpid cpid 0 (world m)) as [[[p status]|errno] w] eqn:Hwait; [|done].
    apply andb_true_iff in Hw as [Hp Hw]. apply bool_decide_eq_true in Hp as ->.
    cbn [reap_all]. rewrite (bind_ok _ _ _ _ _ (reap_success _ pid _ _ _ _ Hwait)).
    destruct (IH (Some cpid) (Machine (set_sandboxes (delete cpid) (self m)) w
                    (trace m ++ [Log INFO (WaitingFor cpid); Reaped cpid status;
                                 Log WARN (StoppedWith cpid (status ≫ 8))])) Hw)
      as (pid' & m' & Hrun & Hd & Hr & Hs).
    exists pid', m'. split; [done|]. cbn [self world trace set_sandboxes sandboxes] in *.
    split; [done|]. split.
    + rewrite Hr, reaped_app. cbn. by rewrite <- app_assoc.
    + intros c. rewrite Hs, signals_to_app. cbn. by rewrite app_nil_r.
Qed.

Lemma lookup_delete_all (cpids : list Z) : ∀ (d : gmap Z string) cpid,
  foldl (λ d c, delete c d) d cpids !! cpid =
    if decide (cpid ∈ cpids) then None else d !! cpid.
Proof.
  induction cpids as [|c rest IH]; intros d cpid.
  - cbn. rewrite decide_False; [done|]. apply not_elem_of_nil.
  - cbn [foldl]. rewrite IH. destruct (decide (cpid ∈ rest)) as [Hin|Hin].
    + rewrite decide_True; [done|]. by apply list_elem_of_further.
    + destruct (decide (c = cpid)) as [->|Hne].
      * rewrite decide_True by apply list_elem_of_here. apply lookup_delete_eq.
      * rewrite decide_False.
        -- by apply lookup_delete_ne.
        -- rewrite elem_of_cons. intros [?|?]; congruence.
Qed.

Lemma delete_all_keys (d : gmap Z string) :
  foldl (λ d c, delete c d) d (keys d) = ∅.
Proof.
  apply map_empty. intros cpid. rewrite lookup_delete_all.
  destruct (decide (cpid ∈ keys d)) as [Hin|Hin]; [done|].
  rewrite elem_of_keys in Hin. by apply eq_None_not_Some.
Qed.

(** The first loop of [stop]. *)
Lemma stop_kill_loop sig m :
  kills_succeed (keys (sandboxes (self m))) sig (world m) = true →
  for_each (keys (sandboxes (self m)))
      (λ cpid, emit (Log WARN (Stopping cpid));; kill cpid sig) m =
    (Ok tt,
     Machine (self m) (after_kills (keys (sandboxes (self m))) sig (world m))
       (trace m ++ concat ((λ cpid, [Log WARN (Stopping cpid)] ++ [Signalled cpid sig])
                             <$> keys (sandboxes (self m))))).
Proof.
  apply (kill_loop _ (λ cpid, [Log WARN (Stopping cpid)])).
  intros cpid m0 w Hk. emits.
  rewrite (kill_run cpid sig _ w) by done. cbn. by rewrite <- app_assoc.
Qed.

(** When the system accepts every [kill] and every [waitpid] returns the
    child waited for, [stop] signals each tracked child once, reaps each
    of them and leaves the sandbox record empty. *)
Lemma stop_reaps_all sig m :
  let cpids := keys (sandboxes (self m)) in
  kills_succeed cpids sig (world m) = true →
  waits_succeed cpids (after_kills cpids sig (world m)) = true →
  ∃ m',
    stop sig m = (Ok tt, m') ∧
    sandboxes (self m') = ∅ ∧
    reaped (trace m') = reaped (trace m) ++ cpids ∧
    (∀ cpid, signals_to cpid (trace m') =
               signals_to cpid (trace m) ++
               if decide (is_Some (sandboxes (self m) !! cpid)) then [sig] else []).
Proof.
  intros cpids Hk Hw. unfold stop. rewrite bind_run. cbn [get_self]. cbv beta iota.
  rewrite (bind_ok _ _ _ _ _ (stop_kill_loop sig m Hk)).
  rewrite bind_run. cbn [get_self self]. cbv beta iota.
  set (m1 := Machine _ _ _).
  destruct (reap_all_success cpids None m1 Hw) as (pid' & m' & Hrun & Hd & Hr & Hs).
  fold cpids. rewrite (bind_ok _ _ _ _ _ Hrun).
  exists m'. split; [reflexivity|]. split; [|split].
  - rewrite Hd. apply delete_all_keys.
  - rewrite Hr. unfold m1. cbn [trace]. rewrite reaped_app.
    rewrite (reaped_kill_loop (λ c, [Log WARN (Stopping c)])) by done.
    by rewrite app_nil_r.
  - intros cpid. rewrite Hs. unfold m1. cbn [trace]. rewrite signals_to_app. f_equal.
    rewrite (signals_to_fan_out (λ c, [Log WARN (Stopping c)])) by (done || apply NoDup_keys).
    destruct (decide (cpid ∈ keys (sandboxes (self m)))) as [Hin|Hin];
      rewrite elem_of_keys in Hin.
    + by rewrite decide_True.
    + by rewrite decide_False.
Qed.

(** X3. The slip of [stop]: its [finally] clause pops [pid], which only a
    successful [waitpid] binds.  When the first [waitpid] fails, [pid]
    is unbound and [stop] ends with [UnboundLocalError], having reaped
    nothing. *)
Lemma stop_first_wait_fails sig m cpid rest errno w :
  keys (sandboxes (self m)) = cpid :: rest →
  kills_succeed (cpid :: rest) sig (world m) = true →
  os_waitpid cpid 0 (after_kills (cpid :: rest) sig (world m)) = (Failure errno, w) →
  ∃ m',
    stop sig m = (Raise (UnboundLocalError "pid"), m') ∧
    self m' = self m ∧
    reaped (trace m') = reaped (trace m).
Proof.
  intros Hkeys Hk Hw. unfold stop. rewrite bind_run. cbn [get_self]. cbv beta iota.
  rewrite <- Hkeys in Hk, Hw.
  rewrite (bind_ok _ _ _ _ _ (stop_kill_loop sig m Hk)).
  rewrite bind_run. cbn [get_self self]. cbv beta iota.
  set (m1 := Machine _ _ _).
  pose proof (reap_failure cpid None m1 errno w Hw) as Hreap. cbn zeta in Hreap.
  assert (reap_all (keys (sandboxes (self m))) None m1
          = (Raise (UnboundLocalError "pid"),
             Machine (self m1) w
               (trace m1 ++ [Log INFO (WaitingFor cpid); Log ERROR (ErrorWaiting cpid)])))
    as Hall.
  { rewrite Hkeys. cbn [reap_all]. by rewrite (bind_raise _ _ _ _ _ Hreap). }
  rewrite (bind_raise _ _ _ _ _ Hall).
  eexists. split; [reflexivity|]. cbn [self trace]. split; [done|].
  unfold m1. cbn [trace]. rewrite !reaped_app.
  rewrite (reaped_kill_loop (λ c, [Log WARN (Stopping c)])) by done.
  cbn. by rewrite !app_nil_r.
Qed.

(** ** What a method leaves untouched *)

Lemma sandbox_blind_delete_closed I : sandbox_blind I → delete_closed I.
Proof. intros HI pid s. apply HI. Qed.

Lemma keeps_ret {A} I (a : A) : keeps I (mret a : M W A).
Proof. by intros m. Qed.

Lemma keeps_raise {A} I e : keeps I (raise e : M W A).
Proof. by intros m. Qed.

Lemma keeps_lift {A} I (r : result A) : keeps I (lift r : M W A).
Proof. by intros m. Qed.

Lemma keeps_emit I e : keeps I (emit e : M W unit).
Proof. by intros m. Qed.

Lemma keeps_get_self I : keeps I (get_self : M W ForkingWorker).
Proof. by intros m. Qed.

Lemma keeps_getcwd I : keeps I (getcwd : M W string).
Proof. by intros m. Qed.

Lemma keeps_os {A} I (call : W → os_result A * W) : keeps I (os call).
Proof. intros m Hm. unfold os. by destruct (call (world m)) as [[a|errno] w]. Qed.

Lemma keeps_io {A} I (call : W → os_result A * W) : keeps I (io call).
Proof. intros m Hm. unfold io. by destruct (call (world m)) as [[a|errno] w]. Qed.

Lemma keeps_ext {A} I (call : W → result A * W) : keeps I (ext call).
Proof. intros m Hm. unfold ext. by destruct (call (world m)) as [r w]. Qed.

Lemma keeps_update I f : (∀ s, I s → I (f s)) → keeps I (update_self f : M W unit).
Proof. intros Hf m Hm. by apply Hf. Qed.

(** The continuation may rely on a fact [Q] about the value bound. *)
Lemma keeps_bind_post {A B} I (Q : A → Prop) (c : M W A) (k : A → M W B) :
  keeps I c →
  (∀ m a, I (self m) → (c m).1 = Ok a → Q a) →
  (∀ a, Q a → keeps I (k a)) →
  keeps I (c ≫= k).
Proof.
  intros Hc HQ Hk m Hm. rewrite bind_run.
  specialize (Hc m Hm). specialize (HQ m).
  destruct (c m) as [[a|e] m']; cbn in *; [|done].
  apply Hk; eauto.
Qed.

Lemma keeps_bind {A B} I (c : M W A) (k : A → M W B) :
  keeps I c → (∀ a, keeps I (k a)) → keeps I (c ≫= k).
Proof. intros Hc Hk. apply (keeps_bind_post I (λ _, True)); auto. Qed.

Lemma keeps_try_except {A} I (body : M W A) handler :
  keeps I body →
  (∀ e h, handler e = Some h → keeps I h) →
  keeps I (try_except body handler).
Proof.
  intros Hb Hh m Hm. unfold try_except. specialize (Hb m Hm).
  destruct (body m) as [[a|e] m']; cbn in *; [done|].
  destruct (handler e) as [h|] eqn:He; [|done]. by apply (Hh e h).
Qed.

Lemma keeps_try_finally {A} I (body : M W A) fin :
  keeps I body → keeps I fin → keeps I (try_finally body fin).
Proof.
  intros Hb Hf m Hm. unfold try_finally. specialize (Hb m Hm).
  destruct (body m) as [r m']; cbn in *. specialize (Hf m' Hb).
  by destruct (fin m') as [[[]|e] m''].
Qed.

Lemma keeps_for_each {A} I (l : list A) (body : A → M W unit) :
  (∀ x, x ∈ l → keeps I (body x)) → keeps I (for_each l body).
Proof.
  induction l as [|x rest IH]; intros Hb; cbn [for_each].
  - apply keeps_ret.
  - apply keeps_bind.
    + apply Hb, list_elem_of_here.
    + intros _. apply IH. intros y Hy. by apply Hb, list_elem_of_further.
Qed.

#[local] Hint Resolve keeps_ret keeps_raise keeps_lift keeps_emit keeps_get_self
  keeps_getcwd keeps_os keeps_io keeps_ext : keeps.

Lemma keeps_kill I cpid sig : keeps I (kill cpid sig).
Proof. apply keeps_bind; auto with keeps. Qed.

Lemma keeps_reap I cpid pid : delete_closed I → keeps I (reap cpid pid).
Proof.
  intros HI. unfold reap, pop_or_none. apply keeps_bind.
  - apply keeps_try_except.
    + apply keeps_bind; [auto with keeps|]. intros _.
      apply keeps_bind; [auto with keeps|]. intros [p status].
      repeat (apply keeps_bind; [auto with keeps|]; intros _). auto with keeps.
    + intros [] h [= <-]. apply keeps_bind; auto with keeps.
  - intros [p|]; [|auto with keeps].
    apply keeps_bind; [|auto with keeps]. apply keeps_update. apply HI.
Qed.

Lemma keeps_reap_all I cpids : delete_closed I → ∀ pid, keeps I (reap_all cpids pid).
Proof.
  intros HI. induction cpids as [|cpid rest IH]; intros pid; cbn [reap_all].
  - auto with keeps.
  - apply keeps_bind; [by apply keeps_reap|]. apply IH.
Qed.

Lemma keeps_stop I sig : delete_closed I → keeps I (stop sig).
Proof.
  intros HI. unfold stop. apply keeps_bind; [auto with keeps|]. intros s.
  apply keeps_bind.
  { apply keeps_for_each. intros cpid _. apply keeps_bind; [auto with keeps|].
    intros _. apply keeps_kill. }
  intros _. apply keeps_bind; [auto with keeps|]. intros s'.
  apply keeps_bind; [by apply keeps_reap_all|]. auto with keeps.
Qed.

Lemma keeps_spawn I options : klass_blind I → keeps I (spawn options).
Proof.
  intros HI. unfold spawn. apply keeps_bind; [auto with keeps|]. intros s.
  apply keeps_bind.
  - destruct (klass s); auto with keeps.
    apply keeps_bind; [auto with keeps|]. intros k.
    apply keeps_bind; [|auto with keeps]. apply keeps_update. apply HI.
  - intros k. apply keeps_bind; [auto with keeps|]. intros s'.
    apply keeps_bind; auto with keeps.
Qed.

Lemma keeps_child I sandbox options :
  klass_blind I → keeps I options → keeps I (child sandbox options).
Proof.
  intros HI Ho. unfold child.
  apply keeps_bind; [auto with keeps|]. intros _.
  apply keeps_bind; [auto with keeps|]. intros _.
  apply keeps_try_finally; [|auto with keeps].
  apply keeps_bind; [auto with keeps|]. intros _.
  apply keeps_bind; [auto with keeps|]. intros _.
  apply keeps_bind; [done|]. intros opts.
  apply keeps_bind; [by apply keeps_spawn|]. intros u.
  apply keeps_bind; auto with keeps.
Qed.

Lemma keeps_reloadLogger I : keeps I (_reloadLogger : M W unit).
Proof.
  unfold _reloadLogger.
  repeat (apply keeps_bind; [auto with keeps|]; intros ?). auto with keeps.
Qed.

Lemma keeps_handler I signum : keeps I (handler signum).
Proof.
  unfold handler. case_decide; [|auto with keeps].
  apply keeps_bind; [auto with keeps|]. intros s.
  apply keeps_bind.
  - apply keeps_for_each. intros cpid _. apply keeps_kill.
  - intros _. case_decide; [apply keeps_reloadLogger|auto with keeps].
Qed.

Lemma keeps_start I resume index :
  klass_blind I → sandbox_blind I → keeps I (start resume index).
Proof.
  intros Hk Hs. unfold start. apply keeps_bind; [auto with keeps|]. intros cwd.
  apply keeps_bind; [auto with keeps|]. intros cpid.
  destruct (truthy (VInt cpid)).
  - repeat (apply keeps_bind; [auto with keeps|]; intros _).
    apply keeps_update. apply Hs.
  - apply keeps_child; [done|]. destruct (resume !! index); auto with keeps.
Qed.

Lemma keeps_pop I pid : delete_closed I → keeps I (pop pid).
Proof.
  intros HI. unfold pop. apply keeps_bind; [auto with keeps|]. intros s.
  destruct (sandboxes s !! pid); [|auto with keeps].
  apply keeps_bind; [|auto with keeps]. apply keeps_update, HI.
Qed.

Lemma keeps_wait_body I : klass_blind I → sandbox_blind I → keeps I wait_body.
Proof.
  intros Hk Hs. unfold wait_body. apply keeps_try_except.
  - apply keeps_bind; [auto with keeps|]. intros [pid status].
    repeat (apply keeps_bind; [auto with keeps|]; intros _).
    apply keeps_bind; [by apply keeps_pop, sandbox_blind_delete_closed|]. intros sandbox.
    apply keeps_bind; [auto with keeps|]. intros cpid.
    destruct (truthy (VInt cpid)).
    + repeat (apply keeps_bind; [auto with keeps|]; intros _).
      apply keeps_update, Hs.
    + apply keeps_child; auto with keeps.
  - intros [] h [= <-]. case_decide; auto with keeps.
Qed.

Lemma keeps_wait_loop_of I fuel : keeps I wait_body → keeps I (wait_loop fuel).
Proof.
  intros Hbody. induction fuel as [|fuel IH]; cbn [wait_loop].
  - apply keeps_bind; [auto with keeps|]. intros s. destruct (shutdown s); auto with keeps.
  - apply keeps_bind; [auto with keeps|]. intros s. destruct (shutdown s); [auto with keeps|].
    apply keeps_bind; [done|]. by intros _.
Qed.

Lemma keeps_guarded_loop_of I fuel :
  keeps I wait_body → delete_closed I → keeps I (guarded_loop fuel).
Proof.
  intros Hbody Hd m Hm. unfold guarded_loop.
  pose proof (keeps_wait_loop_of I fuel Hbody m Hm) as Hloop.
  pose proof (keeps_stop I SIGKILL Hd) as Hstop.
  destruct (wait_loop fuel m) as [r m']; cbn in Hloop.
  specialize (Hstop m' Hloop).
  destruct r as [[[]|]|e]; [| done |]; by destruct (stop SIGKILL m') as [[[]|e'] m''].
Qed.

Lemma keeps_guarded_loop I fuel :
  klass_blind I → sandbox_blind I → keeps I (guarded_loop fuel).
Proof.
  intros Hk Hs. apply keeps_guarded_loop_of.
  - by apply keeps_wait_body.
  - by apply sandbox_blind_delete_closed.
Qed.

Lemma keeps_run I fuel : klass_blind I → sandbox_blind I → keeps I (run fuel).
Proof.
  intros Hk Hs. unfold run. apply keeps_bind; [auto with keeps|]. intros _.
  apply keeps_bind; [auto with keeps|]. intros s.
  apply keeps_bind; [auto with keeps|]. intros resume.
  apply keeps_bind; [auto with keeps|]. intros indices.
  apply keeps_bind; [|intros _; by apply keeps_guarded_loop].
  apply keeps_for_each. intros index _. by apply keeps_start.
Qed.

(** ** The shutdown flag *)

(** C5 (as the code has it).  The flag is false at construction; no
    method of the supervisor writes it afterwards, so the delivery of a
    signal leaves it as it is, whatever the signal; the wait loop reads
    it before every [wait]: it leaves at once when the flag is true and
    runs its body when it is false. *)
Theorem shutdown_flag_only_read base :
  shutdown (__init__ base) = false ∧
  (∀ signum (m : machine W), shutdown (self (handler signum m).2) = shutdown (self m)) ∧
  (∀ sig (m : machine W), shutdown (self (stop sig m).2) = shutdown (self m)) ∧
  (∀ fuel (m : machine W), shutdown (self (run fuel m).2) = shutdown (self m)) ∧
  (∀ fuel (m : machine W), shutdown (self m) = true → wait_loop fuel m = (Ok (Some tt), m)) ∧
  (∀ fuel (m : machine W), shutdown (self m) = false →
     wait_loop (S fuel) m = (wait_body ≫= λ _, wait_loop fuel) m).
Proof.
  split; [by unfold __init__|].
  split; [|split; [|split; [|split]]].
  - intros signum m.
    exact (keeps_handler (λ s, shutdown s = shutdown (self m)) signum m eq_refl).
  - intros sig m.
    refine (keeps_stop (λ s, shutdown s = shutdown (self m)) sig _ m eq_refl).
    by intros pid s.
  - intros fuel m.
    refine (keeps_run (λ s, shutdown s = shutdown (self m)) fuel _ _ m eq_refl).
    + by intros k s.
    + by intros f s.
  - intros fuel m Hm. by rewrite wait_loop_unfold, Hm.
  - intros fuel m Hm. by rewrite wait_loop_unfold, Hm.
Qed.

(** ** Workers built in a child *)

Lemma units_app t1 t2 : units (t1 ++ t2) = units t1 ++ units t2.
Proof. apply omap_app. Qed.

Lemma spawn_builds options m :
  resolvable (self m) = true →
  ∃ u m',
    spawn options m = (Ok u, m') ∧
    u_options u = options ∪ kwargs (self m) ∧
    world m' = world m ∧
    trace m' = trace m ++
      [WorkerUnit (u_klass u) (u_queues u) (u_client u) (options ∪ kwargs (self m))].
Proof.
  unfold resolvable, spawn. intros Hk. rewrite bind_run. cbn [get_self]. cbv beta iota.
  destruct (klass (self m)) as [| | |name| |] eqn:Hklass;
    try (rewrite bind_run; cbn -[union]; eexists _, _; repeat split; done).
  destruct (import_class name) as [k|e] eqn:Himport; [|done].
  rewrite !bind_run. unfold lift at 1. cbn -[union].
  eexists _, _. repeat split; done.
Qed.

Lemma spawn_options options m u m' :
  spawn options m = (Ok u, m') → u_options u = options ∪ kwargs (self m).
Proof.
  unfold spawn. rewrite bind_run. cbn [get_self]. cbv beta iota.
  destruct (klass (self m)) as [| | |name| |] eqn:Hklass;
    try (rewrite bind_run; cbn -[union]; by intros [= <- <-]).
  rewrite !bind_run. unfold lift at 1.
  destruct (import_class name) as [k|e]; [|done].
  cbn -[union]. by intros [= <- <-].
Qed.

(** A child that gets into its sandbox builds one worker with the stored
    options overridden by [options], whatever the worker does then. *)
Lemma child_builds sandbox options m w1 w2 :
  sandbox_enter sandbox (world m) = (Ok tt, w1) →
  os_chdir sandbox w1 = (Success tt, w2) →
  resolvable (self m) = true →
  units (trace (child sandbox (mret options) m).2) =
    units (trace m) ++ [options ∪ kwargs (self m)].
Proof.
  intros Henter Hchdir Hk. unfold child.
  rewrite bind_run. unfold ext at 1. rewrite Henter. emits.
  unfold try_finally.
  erewrite bind_ok by (apply os_success; cbn [world]; exact Hchdir).
  emits. rewrite bind_run. cbn [mret M_ret ret]. cbv beta iota.
  set (m1 := Machine _ _ _).
  destruct (spawn_builds options m1 Hk) as (u & m' & Hspawn & Hopts & Hworld & Htrace).
  rewrite (bind_ok _ _ _ _ _ Hspawn). rewrite bind_run. unfold ext.
  destruct (worker_run _ _ _ _ (world m')) as [[[]|e] w3]; cbn [raise emit snd trace];
    rewrite Htrace; unfold m1; cbn [self trace];
    rewrite !units_app; cbn; by rewrite !app_nil_r.
Qed.

(** C8 (as the code has it).  A worker built in the child of the start-up
    fork of slot [index] gets the [index]-th part of the divided resume
    state as its [resume] option.  A replacement worker, built after a
    child has exited, is passed no [resume] option by the respawn: it gets
    the stored keyword options and the sandbox path of its predecessor, so
    that its [resume] option is the one stored on the supervisor, if
    any. *)
Theorem worker_options_at_start_and_respawn (m : machine W) :
  resolvable (self m) = true →
  (∀ parts index part w1 w2 w3,
     let sandbox := sandbox_path (os_getcwd (world m)) index in
     divide (resume (self m)) (count (self m)) = Ok parts →
     parts !! index = Some part →
     os_fork (world m) = (Success 0, w1) →
     sandbox_enter sandbox w1 = (Ok tt, w2) →
     os_chdir sandbox w2 = (Success tt, w3) →
     ∃ options,
       units (trace (start parts index m).2) = units (trace m) ++ [options] ∧
       options !! "resume" = Some (VJobs part) ∧
       options !! "sandbox" = Some (VStr sandbox)) ∧
  (∀ pid status sandbox w0 w1 w2 w3,
     os_wait (world m) = (Success (pid, status), w0) →
     sandboxes (self m) !! pid = Some sandbox →
     os_fork w0 = (Success 0, w1) →
     sandbox_enter sandbox w1 = (Ok tt, w2) →
     os_chdir sandbox w2 = (Success tt, w3) →
     ∃ options,
       units (trace (wait_body m).2) = units (trace m) ++ [options] ∧
       options = {["sandbox" := VStr sandbox]} ∪ kwargs (self m) ∧
       options !! "resume" = kwargs (self m) !! "resume" ∧
       options !! "sandbox" = Some (VStr sandbox)).
Proof.
  intros Hk. split.
  - intros parts index part w1 w2 w3 sandbox _ Hpart Hfork Henter Hchdir.
    eexists. split; [|split].
    + unfold start. rewrite bind_run. cbn [getcwd]. cbv beta iota.
      erewrite bind_ok by (apply os_success; exact Hfork).
      cbn [truthy Z.eqb negb]. rewrite Hpart.
      by apply (child_builds _ _ (Machine (self m) w1 (trace m)) w2 w3).
    + rewrite lookup_union_l'; by rewrite lookup_insert_eq.
    + rewrite lookup_union_l'; rewrite lookup_insert_ne by done;
        by rewrite lookup_singleton_eq.
  - intros pid status sandbox w0 w1 w2 w3 Hwait Hpid Hfork Henter Hchdir.
    eexists. split; [|split; [reflexivity|split]].
    + unfold wait_body, try_except.
      rewrite (bind_ok _ _ _ _ _ (os_success _ _ _ _ Hwait)).
      emits. rewrite bind_run, pop_tracked with (sandbox := sandbox) by done.
      cbv beta iota.
      erewrite bind_ok by (apply os_success; cbn [world]; exact Hfork).
      cbn [truthy Z.eqb negb].
      set (m1 := Machine _ _ _).
      pose proof (child_builds sandbox {["sandbox" := VStr sandbox]} m1 w2 w3
                    Henter Hchdir Hk) as Hunits.
      assert (units (trace m1) = units (trace m)) as Hm1.
      { unfold m1. cbn [trace]. rewrite !units_app. cbn. by rewrite !app_nil_r. }
      rewrite Hm1 in Hunits.
      destruct (child sandbox (mret {["sandbox" := VStr sandbox]}) m1) as [[[]|e] m2];
        cbn [snd] in *; [done|].
      destruct e as [errno| | | | | |]; try done.
      by destruct (decide (errno = EINTR)).
    + apply lookup_union_r. by rewrite lookup_singleton_ne.
    + rewrite lookup_union_l'; by rewrite lookup_singleton_eq.
Qed.

(** ** Construction *)

(** C10. Without a [workers] option, or with [workers=0], the count is
    the number of CPUs; with any other integer it is that integer (and,
    more generally, any true value is kept).  [workers] and [klass] are
    taken out of the stored keyword options, which no method changes
    afterwards, and a worker built by [spawn] gets those stored options
    under every key that the call does not pass itself. *)
Theorem init_count_and_options base :
  (w_kwargs base !! "workers" = None → count (__init__ base) = VInt NUM_CPUS) ∧
  (w_kwargs base !! "workers" = Some (VInt 0) → count (__init__ base) = VInt NUM_CPUS) ∧
  (∀ n, n ≠ 0 → w_kwargs base !! "workers" = Some (VInt n) →
        count (__init__ base) = VInt n) ∧
  (∀ v, truthy v = true → w_kwargs base !! "workers" = Some v →
        count (__init__ base) = v) ∧
  kwargs (__init__ base) = delete "workers" (delete "klass" (w_kwargs base)) ∧
  kwargs (__init__ base) !! "workers" = None ∧
  kwargs (__init__ base) !! "klass" = None ∧
  (∀ fuel (m : machine W), kwargs (self (run fuel m).2) = kwargs (self m)) ∧
  (∀ options (m : machine W) u m',
     kwargs (self m) = kwargs (__init__ base) →
     spawn options m = (Ok u, m') →
     u_options u = options ∪ delete "workers" (delete "klass" (w_kwargs base)) ∧
     (options !! "workers" = None → u_options u !! "workers" = None) ∧
     (options !! "klass" = None → u_options u !! "klass" = None)).
Proof.
  assert (kwargs (__init__ base) = delete "workers" (delete "klass" (w_kwargs base)))
    as Hkw by done.
  assert (∀ v, truthy v = true → w_kwargs base !! "workers" = Some v →
               count (__init__ base) = v) as Htrue.
  { intros v Hv Hw. unfold __init__, pop_default. cbn [count].
    rewrite lookup_delete_ne, Hw by done. cbn. unfold py_or. by rewrite Hv. }
  split; [|split; [|split; [|split; [|split; [|split; [|split; [|split]]]]]]].
  - intros Hw. unfold __init__, pop_default. cbn [count].
    by rewrite lookup_delete_ne, Hw by done.
  - intros Hw. unfold __init__, pop_default. cbn [count].
    by rewrite lookup_delete_ne, Hw by done.
  - intros n Hn. apply Htrue. cbn. by apply negb_true_iff, Z.eqb_neq.
  - done.
  - done.
  - rewrite Hkw. apply lookup_delete_eq.
  - rewrite Hkw. rewrite lookup_delete_ne by done. apply lookup_delete_eq.
  - intros fuel m.
    refine (keeps_run (λ s, kwargs s = kwargs (self m)) fuel _ _ m eq_refl).
    + by intros k s.
    + by intros f s.
  - intros options m u m' Hm Hspawn.
    rewrite (spawn_options _ _ _ _ Hspawn), Hm, Hkw. split; [done|]. split; intros Ho.
    + rewrite lookup_union_r by done. apply lookup_delete_eq.
    + rewrite lookup_union_r by done. rewrite lookup_delete_ne by done.
      apply lookup_delete_eq.
Qed.

(** Every false value of [workers] ([0], [False], [None], an empty
    string) selects the number of CPUs. *)
Lemma init_count_false base v :
  w_kwargs base !! "workers" = Some v →
  truthy v = false →
  count (__init__ base) = VInt NUM_CPUS.
Proof.
  intros Hw Hv. unfold __init__, pop_default. cbn [count].
  rewrite lookup_delete_ne, Hw by done. cbn. unfold py_or. by rewrite Hv.
Qed.

(** ** Sandbox paths *)

Lemma append_assoc (a b c : string) : (a +:+ b) +:+ c = a +:+ b +:+ c.
Proof.
  induction a as [|x a IH]; [reflexivity|].
  change (String x ((a +:+ b) +:+ c) = String x (a +:+ b +:+ c)). by rewrite IH.
Qed.

Lemma ends_with_slash_append (a b : string) :
  b ≠ "" → ends_with_slash (a +:+ b) = ends_with_slash b.
Proof.
  intros Hb. induction a as [|x a IH]; [done|].
  change (String x a +:+ b) with (String x (a +:+ b)).
  cbn [ends_with_slash]. rewrite IH.
  destruct (a +:+ b) eqn:Hab; [|done].
  destruct a; [by change (b = "") in Hab|discriminate].
Qed.

(** Under a working directory that is not empty and has no trailing
    slash, the join is the plain concatenation. *)
Lemma sandbox_path_shape cwd index :
  cwd ≠ "" → ends_with_slash cwd = false →
  sandbox_path cwd index = cwd +:+ "/qless-py-workers/sandbox-" +:+ pretty index.
Proof.
  intros Hne Hslash. unfold sandbox_path, path_join.
  cbn [starts_with_slash Ascii.eqb Bool.eqb].
  replace (String.eqb cwd "") with false by (symmetry; by apply String.eqb_neq).
  rewrite Hslash. cbn [orb].
  replace (starts_with_slash ("sandbox-" +:+ pretty index)) with false by done.
  replace (String.eqb (cwd +:+ "/" +:+ "qless-py-workers") "") with false.
  2:{ symmetry. apply String.eqb_neq. by destruct cwd. }
  rewrite ends_with_slash_append by done.
  replace (ends_with_slash ("/" +:+ "qless-py-workers")) with false by reflexivity.
  cbn [orb]. rewrite append_assoc. f_equal.
Qed.

Lemma raises_raise {A} e : raises (raise e : M W A).
Proof. intros m. by exists e. Qed.

Lemma raises_bind_l {A B} (c : M W A) (k : A → M W B) : raises c → raises (c ≫= k).
Proof. intros Hc m. rewrite bind_run. destruct (Hc m) as [e He].
  destruct (c m) as [[a|e'] m']; cbn in *; [done|]. by exists e'. Qed.

Lemma raises_bind_r {A B} (c : M W A) (k : A → M W B) :
  (∀ a, raises (k a)) → raises (c ≫= k).
Proof.
  intros Hk m. rewrite bind_run. destruct (c m) as [[a|e] m']; [apply Hk|by exists e].
Qed.

Lemma raises_try_finally {A} (body : M W A) fin : raises body → raises (try_finally body fin).
Proof.
  intros Hb m. unfold try_finally. destruct (Hb m) as [e He].
  destruct (body m) as [r m']; cbn in He; subst r.
  destruct (fin m') as [[[]|e'] m'']; eauto.
Qed.

(** The child branch of a fork never falls through to the code of the
    parent: it ends with [SystemExit] or with an error. *)
Lemma child_raises sandbox options : raises (child sandbox options).
Proof.
  unfold child. do 2 (apply raises_bind_r; intros _).
  apply raises_try_finally.
  do 2 (apply raises_bind_r; intros _).
  apply raises_bind_r; intros opts. apply raises_bind_r; intros u.
  apply raises_bind_r; intros _. apply raises_raise.
Qed.

Lemma slots_only_klass_blind P : klass_blind (slots_only P).
Proof. by intros k s. Qed.

Lemma slots_only_delete_closed P : delete_closed (slots_only P).
Proof.
  intros pid s Hs p sandbox. cbn. intros Hp.
  apply lookup_delete_Some in Hp as [_ Hp]. by apply (Hs p).
Qed.

Lemma slots_only_insert P cpid sandbox s :
  P sandbox → slots_only P s → slots_only P (set_sandboxes <[cpid := sandbox]> s).
Proof.
  intros HP Hs p sb. cbn. intros Hp.
  apply lookup_insert_Some in Hp as [[_ <-]|[_ Hp]]; [done|]. by apply (Hs p).
Qed.

Lemma keeps_wait_body_slots P : keeps (slots_only P) wait_body.
Proof.
  unfold wait_body. apply keeps_try_except.
  - apply keeps_bind; [apply keeps_os|]. intros [pid status].
    do 2 (apply keeps_bind; [apply keeps_emit|]; intros _).
    apply (keeps_bind_post _ P).
    + apply keeps_pop, slots_only_delete_closed.
    + intros m sandbox Hm. unfold pop. rewrite bind_run. cbn [get_self]. cbv beta iota.
      destruct (sandboxes (self m) !! pid) as [sb|] eqn:Hpid; [|done].
      cbn. intros [= <-]. by apply (Hm pid).
    + intros sandbox HP. apply keeps_bind; [apply keeps_os|]. intros cpid.
      destruct (truthy (VInt cpid)).
      * do 2 (apply keeps_bind; [apply keeps_emit|]; intros _).
        apply keeps_update. intros s. by apply slots_only_insert.
      * apply keeps_child; [apply slots_only_klass_blind|apply keeps_ret].
  - intros [] h [= <-]. case_decide; [apply keeps_ret|apply keeps_raise].
Qed.

(** The start-up loop, in a system where [fork] leaves the working
    directory alone: every sandbox it records satisfies [P] when the
    paths of the slots it goes through do. *)
Lemma startup_slots P cwd parts :
  (∀ w, os_getcwd (os_fork w).2 = os_getcwd w) →
  ∀ indices m,
    (∀ index, index ∈ indices → P (sandbox_path cwd index)) →
    os_getcwd (world m) = cwd →
    slots_only P (self m) →
    slots_only P (self (for_each indices (start parts) m).2).
Proof.
  intros Hcwd indices. induction indices as [|index rest IH]; intros m HP Hm Hs; [done|].
  cbn [for_each]. rewrite bind_run.
  assert (P (sandbox_path cwd index)) as Hindex by apply HP, list_elem_of_here.
  unfold start at 1. rewrite bind_run. cbn [getcwd]. cbv beta iota.
  rewrite bind_run. unfold os at 1. specialize (Hcwd (world m)).
  destruct (os_fork (world m)) as [[cpid|errno] w]; [|done]. cbn [snd] in Hcwd.
  destruct (truthy (VInt cpid)).
  - emits. cbn [update_self]. unfold update_self. apply IH.
    + intros i Hi. by apply HP, list_elem_of_further.
    + cbn [world]. congruence.
    + cbn [self]. rewrite Hm. by apply slots_only_insert.
  - set (m1 := Machine _ _ _). set (c := child _ _).
    assert (∃ e, (c m1).1 = Raise e) as [e He] by apply child_raises.
    assert (slots_only P (self (c m1).2)) as Hc.
    { apply keeps_child; [apply slots_only_klass_blind| |done].
      destruct (parts !! index); [apply keeps_ret|apply keeps_raise]. }
    by destruct (c m1) as [[[]|e'] m2].
Qed.

(** C9. The parent records, for the child of slot [index], the join of
    the working directory, [qless-py-workers] and [sandbox-<index>]; a
    replacement is recorded under the very path of the child it replaces;
    so, in a system where [fork] leaves the working directory alone, at
    any moment of a run with [count] slots that starts with an empty
    record, every recorded sandbox is the path of one of the slots
    [0..count-1] under the working directory of the start; and under a
    working directory with no trailing slash that path is
    [<cwd>/qless-py-workers/sandbox-<index>]. *)
Theorem sandbox_path_of_slot_is_stable (m : machine W) :
  (∀ parts index cpid w,
     os_fork (world m) = (Success cpid, w) → cpid ≠ 0 →
     sandboxes (self (start parts index m).2) !! cpid =
       Some (path_join (os_getcwd (world m))
               ["qless-py-workers"; "sandbox-" +:+ pretty index])) ∧
  (∀ pid status w1 sandbox cpid w2,
     os_wait (world m) = (Success (pid, status), w1) →
     sandboxes (self m) !! pid = Some sandbox →
     os_fork w1 = (Success cpid, w2) → cpid ≠ 0 →
     sandboxes (self (wait_body m).2) !! cpid = Some sandbox) ∧
  (∀ n fuel,
     (∀ w, os_getcwd (os_fork w).2 = os_getcwd w) →
     count (self m) = VInt n →
     sandboxes (self m) = ∅ →
     ∀ pid sandbox,
       sandboxes (self (run fuel m).2) !! pid = Some sandbox →
       ∃ index, (index < Z.to_nat n)%nat ∧
                sandbox = sandbox_path (os_getcwd (world m)) index) ∧
  (∀ index,
     os_getcwd (world m) ≠ "" → ends_with_slash (os_getcwd (world m)) = false →
     sandbox_path (os_getcwd (world m)) index =
       os_getcwd (world m) +:+ "/qless-py-workers/sandbox-" +:+ pretty index).
Proof.
  split; [|split; [|split]].
  - intros parts index cpid w Hfork Hc. unfold start.
    rewrite bind_run. cbn [getcwd]. cbv beta iota.
    erewrite bind_ok by (apply os_success; exact Hfork).
    cbn [truthy]. replace (cpid =? 0) with false by (symmetry; by apply Z.eqb_neq).
    cbn [negb]. emits. cbn. apply lookup_insert_eq.
  - intros pid status w1 sandbox cpid w2 Hwait Hpid Hfork Hc.
    rewrite (wait_body_respawn m pid status w1 sandbox cpid w2) by done.
    cbn. apply lookup_insert_eq.
  - intros n fuel Hcwd Hcount Hempty.
    set (P := λ sandbox, ∃ index, (index < Z.to_nat n)%nat ∧
                                  sandbox = sandbox_path (os_getcwd (world m)) index).
    enough (slots_only P (self (run fuel m).2)) as Hrun by exact Hrun.
    unfold run. emits. rewrite bind_run. cbn [get_self self]. cbv beta iota.
    rewrite bind_run. unfold lift at 1.
    destruct (divide (resume (self m)) (count (self m))) as [parts|e].
    2:{ cbn. intros pid sandbox. by rewrite Hempty, lookup_empty. }
    rewrite bind_run. unfold lift at 1. rewrite Hcount. cbn [py_range].
    rewrite bind_run.
    set (m0 := Machine _ _ _).
    assert (slots_only P (self (for_each (seq 0 (Z.to_nat n)) (start parts) m0).2)) as Hstart.
    { apply (startup_slots P (os_getcwd (world m))); [done| |done|].
      - intros index Hin. exists index. split; [|done].
        apply list_elem_of_In, in_seq in Hin. lia.
      - intros pid sandbox. cbn. by rewrite Hempty, lookup_empty. }
    destruct (for_each _ _ m0) as [[[]|e] m1]; [|done]. cbn [snd] in Hstart.
    apply keeps_guarded_loop_of; [apply keeps_wait_body_slots| |done].
    apply slots_only_delete_closed.
  - intros index. apply sandbox_path_shape.
Qed.

End Properties.

(** * More of the supervisor *)

Section Further.
Context {W : Type} `{!Env W}.
Implicit Types (m : machine W) (w : W).

Ltac steps :=
  cbv beta iota;
  repeat (rewrite bind_run, emit_run; cbn [self world trace]; cbv beta iota).

(** ** A [kill] that fails *)

(** X1. [stop]: when a [kill] fails, [stop] ends with that [OSError] before
    any [waitpid]: the instance is unchanged, nothing is reaped, the
    children before the failing one have been sent the signal once and
    the others nothing. *)
Theorem stop_kill_failure sig m before cpid after errno w :
  keys (sandboxes (self m)) = before ++ cpid :: after →
  kills_succeed before sig (world m) = true →
  os_kill cpid sig (after_kills before sig (world m)) = (Failure errno, w) →
  ∃ m',
    stop sig m = (Raise (OSError errno), m') ∧
    self m' = self m ∧
    world m' = w ∧
    reaped (trace m') = reaped (trace m) ∧
    ∀ c, signals_to c (trace m') =
           signals_to c (trace m) ++ if decide (c ∈ before) then [sig] else [].
Proof.
  intros Hkeys Hk Hc. destruct (NoDup_keys_prefix _ _ _ _ Hkeys) as [Hnd _].
  unfold stop. rewrite bind_run. cbn [get_self]. cbv beta iota. rewrite Hkeys.
  erewrite bind_raise.
  2:{ apply (kill_loop_failure _ (λ c, [Log WARN (Stopping c)])); [| |exact Hk|exact Hc].
      - intros c m0 w0 Hk0. steps. rewrite (kill_run c sig _ w0) by done.
        cbn. by rewrite <- app_assoc.
      - intros c m0 w0 e Hk0. steps. by rewrite (kill_fails c sig _ e w0) by done. }
  eexists. split; [reflexivity|]. cbn [self world trace].
  split; [done|]. split; [done|]. split.
  - rewrite !reaped_app.
    rewrite (reaped_kill_loop (λ c, [Log WARN (Stopping c)])) by done.
    cbn. by rewrite !app_nil_r.
  - intros c. rewrite !signals_to_app.
    rewrite (signals_to_fan_out (λ c, [Log WARN (Stopping c)])) by done.
    cbn. by rewrite app_nil_r.
Qed.

(** X4. [handler]: when a [kill] fails, the handler ends with that [OSError]:
    the children after the failing one are not signalled, the logger is
    not rebuilt and the parent is not ended with [exit(0)]. *)
Theorem handler_kill_failure m signum before cpid after errno w :
  signum ∈ [SIGTERM; SIGINT; SIGQUIT; SIGHUP] →
  keys (sandboxes (self m)) = before ++ cpid :: after →
  kills_succeed before signum (world m) = true →
  os_kill cpid signum (after_kills before signum (world m)) = (Failure errno, w) →
  ∃ m',
    handler signum m = (Raise (OSError errno), m') ∧
    self m' = self m ∧
    reloads (trace m') = reloads (trace m) ∧
    ∀ c, signals_to c (trace m') =
           signals_to c (trace m) ++ if decide (c ∈ before) then [signum] else [].
Proof.
  intros Hsig Hkeys Hk Hc. destruct (NoDup_keys_prefix _ _ _ _ Hkeys) as [Hnd _].
  unfold handler. rewrite decide_True by done.
  rewrite bind_run. cbn [get_self]. cbv beta iota. rewrite Hkeys.
  erewrite bind_raise.
  2:{ apply (kill_loop_failure _ (λ _, [])); [| |exact Hk|exact Hc].
      - intros c m0 w0 Hk0. by rewrite (kill_run c signum _ w0).
      - intros c m0 w0 e Hk0. rewrite (kill_fails c signum _ e w0) by done.
        by rewrite app_nil_r. }
  eexists. split; [reflexivity|]. cbn [self world trace].
  split; [done|]. split.
  - unfold reloads. rewrite !omap_app, !length_app.
    assert (omap (λ e, match e with LoggerReset => Some tt | _ => None end)
              (concat ((λ c, [] ++ [Signalled c signum]) <$> before)) = []) as ->.
    { clear. induction before as [|c l IH]; [done|]. cbn. exact IH. }
    cbn. lia.
  - intros c. rewrite !signals_to_app.
    rewrite (signals_to_fan_out (λ _, [])) by done.
    cbn. by rewrite app_nil_r.
Qed.

(** ** A [waitpid] that fails *)

Lemma wait_errors_app t1 t2 : wait_errors (t1 ++ t2) = wait_errors t1 ++ wait_errors t2.
Proof. apply omap_app. Qed.

Lemma failed_waits_subset cpids : ∀ w c, c ∈ failed_waits cpids w → c ∈ cpids.
Proof.
  induction cpids as [|cpid rest IH]; intros w c; cbn [failed_waits]; [done|].
  destruct (os_waitpid cpid 0 w) as [[r|errno] w'].
  - intros Hin. apply list_elem_of_further. by apply (IH w').
  - rewrite !elem_of_cons. intros [->|Hin]; [by left|right; by apply (IH w')].
Qed.

(** The second loop of [stop] once [pid] is bound to a child that is no
    longer in the record: a failed wait pops nothing. *)
Lemma reap_all_bound cpids : ∀ p m,
  NoDup cpids →
  sandboxes (self m) !! p = None →
  waits_honest cpids (world m) = true →
  ∃ pid' m',
    reap_all cpids (Some p) m = (Ok pid', m') ∧
    (∀ c, sandboxes (self m') !! c =
            if decide (c ∈ cpids ∧ c ∉ failed_waits cpids (world m))
            then None else sandboxes (self m) !! c) ∧
    wait_errors (trace m') = wait_errors (trace m) ++ failed_waits cpids (world m) ∧
    (∀ c, signals_to c (trace m') = signals_to c (trace m)) ∧
    shutdown (self m') = shutdown (self m).
Proof.
  induction cpids as [|cpid rest IH]; intros p m Hnd Hp Hw.
  - exists (Some p), m. cbn. rewrite app_nil_r. split; [done|]. split; [|done].
    intros c. rewrite decide_False; [done|]. intros [Hin _]. by apply not_elem_of_nil in Hin.
  - apply NoDup_cons in Hnd as [Hcpid Hnd].
    cbn [waits_honest failed_waits] in *. cbn [reap_all].
    destruct (os_waitpid cpid 0 (world m)) as [[[q status]|errno] w] eqn:Hwait.
    + apply andb_true_iff in Hw as [Hq Hw]. apply bool_decide_eq_true in Hq as ->.
      rewrite (bind_ok _ _ _ _ _ (reap_success _ (Some p) _ _ _ _ Hwait)).
      set (m1 := Machine _ _ _).
      destruct (IH cpid m1 Hnd) as (pid' & m' & Hrun & Hd & He & Hs & Hf);
        [apply lookup_delete_eq|exact Hw|].
      exists pid', m'. split; [done|]. cbn [self world trace set_sandboxes sandboxes] in *.
      split; [|split; [|split]].
      * intros c. rewrite Hd. unfold m1. cbn [world self set_sandboxes sandboxes].
        destruct (decide (c = cpid)) as [->|Hne].
        -- rewrite (decide_False (P := cpid ∈ rest ∧ _)) by (intros [? _]; done).
           rewrite decide_True; [apply lookup_delete_eq|].
           split; [apply list_elem_of_here|].
           intros Hin. apply Hcpid. by apply (failed_waits_subset rest w).
        -- rewrite lookup_delete_ne by done.
           destruct (decide (c ∈ rest ∧ c ∉ failed_waits rest w)) as [[H1 H2]|Hn].
           ++ rewrite decide_True; [done|]. split; [by apply list_elem_of_further|done].
           ++ rewrite decide_False; [done|]. intros [H1 H2]. apply Hn.
              apply elem_of_cons in H1 as [?|?]; done.
      * rewrite He. unfold m1. cbn [trace world]. rewrite wait_errors_app. cbn.
        by rewrite app_nil_r.
      * intros c. rewrite Hs. unfold m1. cbn [trace]. rewrite signals_to_app. cbn.
        by rewrite app_nil_r.
      * by rewrite Hf.
    + pose proof (reap_failure cpid (Some p) m errno w Hwait) as Hreap. cbn zeta in Hreap.
      rewrite (bind_ok _ _ _ _ _ Hreap).
      set (m1 := Machine _ _ _).
      assert (sandboxes (self m1) = sandboxes (self m)) as Hsame.
      { unfold m1. cbn. by apply delete_id. }
      destruct (IH p m1 Hnd) as (pid' & m' & Hrun & Hd & He & Hs & Hf);
        [by rewrite Hsame|exact Hw|].
      exists pid', m'. split; [done|]. rewrite Hsame in Hd.
      split; [|split; [|split]].
      * intros c. rewrite Hd. unfold m1. cbn [world].
        destruct (decide (c = cpid)) as [->|Hne].
        -- rewrite (decide_False (P := cpid ∈ rest ∧ _)) by (intros [? _]; done).
           rewrite decide_False; [done|]. intros [_ Hn]. apply Hn, list_elem_of_here.
        -- destruct (decide (c ∈ rest ∧ c ∉ failed_waits rest w)) as [[H1 H2]|Hn].
           ++ rewrite decide_True; [done|]. split; [by apply list_elem_of_further|].
              rewrite elem_of_cons. intros [?|?]; done.
           ++ rewrite decide_False; [done|]. intros [H1 H2]. apply Hn.
              apply elem_of_cons in H1 as [?|H1]; [done|]. split; [done|].
              intros Hin. apply H2. by apply list_elem_of_further.
      * rewrite He. unfold m1. cbn [trace world]. rewrite wait_errors_app. cbn.
        by rewrite <- app_assoc.
      * intros c. rewrite Hs. unfold m1. cbn [trace]. rewrite signals_to_app. cbn.
        by rewrite app_nil_r.
      * rewrite Hf. unfold m1. done.
Qed.

Lemma wait_errors_kill_loop (pre : Z → list event) sig cpids :
  (∀ c, wait_errors (pre c) = []) →
  wait_errors (concat ((λ c, pre c ++ [Signalled c sig]) <$> cpids)) = [].
Proof.
  intros Hpre. induction cpids as [|c rest IH]; [done|].
  cbn [fmap list_fmap concat]. by rewrite !wait_errors_app, Hpre, IH.
Qed.

(** X2. [stop]: when every [kill] succeeds and the first [waitpid] returns,
    [stop] returns normally whatever the later [waitpid] calls do, and the
    children it leaves in the sandbox record are exactly those whose
    [waitpid] failed: each failure is logged, but its entry is never
    removed. *)
Theorem stop_leaves_failed_waits sig m :
  let cpids := keys (sandboxes (self m)) in
  let w := after_kills cpids sig (world m) in
  kills_succeed cpids sig (world m) = true →
  waits_honest cpids w = true →
  first_wait_returns cpids w = true →
  ∃ m',
    stop sig m = (Ok tt, m') ∧
    (∀ c, sandboxes (self m') !! c =
            if decide (c ∈ failed_waits cpids w) then sandboxes (self m) !! c else None) ∧
    wait_errors (trace m') = wait_errors (trace m) ++ failed_waits cpids w ∧
    (∀ c, c ∈ failed_waits cpids w → signals_to c (trace m') = signals_to c (trace m) ++ [sig]).
Proof.
  intros cpids w Hk Hh Hfirst. unfold stop. rewrite bind_run. cbn [get_self]. cbv beta iota.
  rewrite (bind_ok _ _ _ _ _ (stop_kill_loop sig m Hk)).
  rewrite bind_run. cbn [get_self self]. cbv beta iota.
  set (m1 := Machine _ _ _). fold cpids.
  assert (world m1 = w) as Hw1 by done.
  assert (∀ c, signals_to c (trace m1) =
               signals_to c (trace m) ++ if decide (c ∈ cpids) then [sig] else []) as Hsig.
  { intros c. unfold m1. cbn [trace]. rewrite signals_to_app.
    by rewrite (signals_to_fan_out (λ c, [Log WARN (Stopping c)])) by (done || apply NoDup_keys). }
  assert (wait_errors (trace m1) = wait_errors (trace m)) as Herr.
  { unfold m1. cbn [trace]. rewrite wait_errors_app.
    rewrite (wait_errors_kill_loop (λ c, [Log WARN (Stopping c)])) by done.
    by rewrite app_nil_r. }
  pose proof (NoDup_keys (sandboxes (self m))) as Hnd. fold cpids in Hnd.
  assert (∀ c, c ∈ cpids ↔ is_Some (sandboxes (self m) !! c)) as Hdom
    by (intros c; apply elem_of_keys).
  assert (self m1 = self m) as Hself by done.
  clearbody m1 w. clear Hk. destruct cpids as [|cpid rest].
  - exists m1. cbn. rewrite app_nil_r. split; [done|]. split; [|split; [done|]].
    + intros c. rewrite Hself. rewrite decide_False by apply not_elem_of_nil.
      apply eq_None_not_Some. rewrite <- Hdom. apply not_elem_of_nil.
    + intros c Hin. by apply not_elem_of_nil in Hin.
  - cbn [first_wait_returns waits_honest failed_waits] in *.
    destruct (os_waitpid cpid 0 w) as [[[q status]|errno] w'] eqn:Hwait; [|done].
    apply andb_true_iff in Hh as [Hq Hh]. apply bool_decide_eq_true in Hq as ->.
    apply NoDup_cons in Hnd as [Hcpid Hnd].
    cbn [reap_all]. rewrite <- Hw1 in Hwait.
    rewrite bind_run, (bind_ok _ _ _ _ _ (reap_success _ None _ _ _ _ Hwait)).
    set (m2 := Machine _ _ _).
    destruct (reap_all_bound rest cpid m2 Hnd) as (pid' & m' & Hrun & Hd & He & Hs & _);
      [apply lookup_delete_eq|exact Hh|].
    rewrite Hrun. exists m'. split; [done|].
    unfold m2 in Hd, He, Hs. cbn [self world trace set_sandboxes sandboxes] in Hd, He, Hs.
    rewrite Hself in Hd.
    split; [|split].
    + intros c. rewrite Hd.
      destruct (decide (c ∈ failed_waits rest w')) as [Hf|Hf].
      * pose proof (failed_waits_subset _ _ _ Hf) as Hin.
        rewrite decide_False by (intros [_ ?]; done).
        apply lookup_delete_ne. intros ->. done.
      * destruct (decide (c ∈ rest)) as [Hin|Hin].
        -- by rewrite decide_True.
        -- rewrite decide_False by (intros [? _]; done).
           destruct (decide (c = cpid)) as [->|Hne]; [apply lookup_delete_eq|].
           rewrite lookup_delete_ne by done.
           apply eq_None_not_Some. rewrite <- Hdom, elem_of_cons. intros [?|?]; done.
    + rewrite He. cbn [trace]. rewrite wait_errors_app, Herr. cbn. by rewrite app_nil_r.
    + intros c Hf. rewrite Hs. cbn [trace]. rewrite signals_to_app, Hsig. cbn.
      rewrite app_nil_r. rewrite decide_True; [done|].
      apply list_elem_of_further. by apply (failed_waits_subset rest w').
Qed.

(** ** The start-up loop *)

Lemma start_parent parts index m cpid w :
  os_fork (world m) = (Success cpid, w) →
  cpid ≠ 0 →
  start parts index m =
    (Ok tt,
     Machine (set_sandboxes <[cpid := sandbox_path (os_getcwd (world m)) index]> (self m)) w
       (trace m ++ [Forked cpid; Log INFO (SpawnedWorker cpid)])).
Proof.
  intros Hfork Hc. unfold start. rewrite bind_run. cbn [getcwd]. cbv beta iota.
  erewrite bind_ok by (apply os_success; exact Hfork).
  cbn [truthy]. replace (cpid =? 0) with false by (symmetry; by apply Z.eqb_neq).
  cbn [negb]. steps. unfold update_self. cbn. by rewrite <- app_assoc.
Qed.

Lemma start_fork_fails parts index m errno w :
  os_fork (world m) = (Failure errno, w) →
  start parts index m = (Raise (OSError errno), Machine (self m) w (trace m)).
Proof.
  intros Hfork. unfold start. rewrite bind_run. cbn [getcwd]. cbv beta iota.
  by erewrite bind_raise by (apply os_failure; exact Hfork).
Qed.

Lemma forked_births pids : forked (births pids) = pids.
Proof. induction pids as [|p l IH]; [done|]. cbn. by f_equal. Qed.

Lemma signals_to_births c pids : signals_to c (births pids) = [].
Proof. induction pids as [|p l IH]; [done|]. exact IH. Qed.

Lemma reaped_births pids : reaped (births pids) = [].
Proof. induction pids as [|p l IH]; [done|]. exact IH. Qed.

(** The loop goes through the slots for which [fork] returns in the
    parent. *)
Lemma startup_parent parts (Hcwd : ∀ w, os_getcwd (os_fork w).2 = os_getcwd w) :
  ∀ pids indices m,
    length pids = length indices →
    forks_answer (Success <$> pids) (world m) = true →
    Forall (λ cpid, cpid ≠ 0) pids →
    for_each indices (start parts) m =
      (Ok tt,
       Machine
         (set_sandboxes (recorded (os_getcwd (world m)) pids indices) (self m))
         (after_forks (length pids) (world m))
         (trace m ++ births pids)).
Proof.
  induction pids as [|cpid pids IH]; intros [|index indices] m Hlen Hf Hnz; try done.
  - cbn. rewrite app_nil_r. by destruct m as [[] ? ?].
  - cbn [fmap list_fmap forks_answer] in Hf. apply andb_true_iff in Hf as [Hfork Hf].
    apply bool_decide_eq_true in Hfork. apply Forall_cons in Hnz as [Hc Hnz].
    specialize (Hcwd (world m)).
    destruct (os_fork (world m)) as [r w] eqn:Hfork'. cbn [fst snd] in *. subst r.
    cbn [for_each]. rewrite (bind_ok _ _ _ _ _ (start_parent parts index m cpid w Hfork' Hc)).
    rewrite IH; [|by injection Hlen|done|done].
    cbn [self world trace length after_forks]. rewrite Hfork', Hcwd. cbn [snd].
    unfold recorded, births. cbn. by rewrite <- app_assoc.
Qed.

(** The same when the fork after those of [pids] fails. *)
Lemma startup_fork_fails parts (Hcwd : ∀ w, os_getcwd (os_fork w).2 = os_getcwd w) :
  ∀ pids indices m errno,
    (length pids < length indices)%nat →
    forks_answer ((Success <$> pids) ++ [Failure errno]) (world m) = true →
    Forall (λ cpid, cpid ≠ 0) pids →
    for_each indices (start parts) m =
      (Raise (OSError errno),
       Machine
         (set_sandboxes (recorded (os_getcwd (world m)) pids (take (length pids) indices))
            (self m))
         (after_forks (S (length pids)) (world m))
         (trace m ++ births pids)).
Proof.
  induction pids as [|cpid pids IH]; intros [|index indices] m errno Hlen Hf Hnz;
    try (cbn in Hlen; lia).
  - cbn [fmap list_fmap app forks_answer] in Hf. apply andb_true_iff in Hf as [Hfork _].
    apply bool_decide_eq_true in Hfork.
    destruct (os_fork (world m)) as [r w] eqn:Hfork'. cbn [fst] in *. subst r.
    cbn [for_each]. rewrite (bind_raise _ _ _ _ _ (start_fork_fails parts index m errno w Hfork')).
    cbn. rewrite Hfork', app_nil_r. by destruct m as [[] ? ?].
  - cbn [fmap list_fmap app forks_answer] in Hf. apply andb_true_iff in Hf as [Hfork Hf].
    apply bool_decide_eq_true in Hfork. apply Forall_cons in Hnz as [Hc Hnz].
    specialize (Hcwd (world m)).
    destruct (os_fork (world m)) as [r w] eqn:Hfork'. cbn [fst snd] in *. subst r.
    cbn [for_each]. rewrite (bind_ok _ _ _ _ _ (start_parent parts index m cpid w Hfork' Hc)).
    rewrite (IH indices _ errno); [|cbn in Hlen; lia|done|done].
    cbn [self world trace length after_forks take]. rewrite Hfork', Hcwd. cbn [snd].
    unfold recorded, births. cbn. by rewrite <- app_assoc.
Qed.

Lemma recorded_cons cwd p pids x indices (d : gmap Z string) :
  recorded cwd (p :: pids) (x :: indices) d =
    recorded cwd pids indices (<[p := sandbox_path cwd x]> d).
Proof. reflexivity. Qed.

Lemma recorded_notin cwd pid : ∀ pids indices (d : gmap Z string),
  pid ∉ pids → recorded cwd pids indices d !! pid = d !! pid.
Proof.
  induction pids as [|p pids IH]; intros [|i indices] d Hpid; try done.
  apply not_elem_of_cons in Hpid as [Hne Hpid].
  rewrite recorded_cons, IH by done. by apply lookup_insert_ne.
Qed.

Lemma recorded_lookup cwd : ∀ pids indices (d : gmap Z string) i pid index,
  NoDup pids →
  pids !! i = Some pid →
  indices !! i = Some index →
  recorded cwd pids indices d !! pid = Some (sandbox_path cwd index).
Proof.
  induction pids as [|p pids IH]; intros [|x indices] d i pid index Hnd Hp Hi; try done.
  apply NoDup_cons in Hnd as [Hp' Hnd]. rewrite recorded_cons.
  destruct i as [|i]; cbn in Hp, Hi.
  - injection Hp as ->. injection Hi as ->.
    rewrite recorded_notin by done. apply lookup_insert_eq.
  - by apply (IH indices _ i).
Qed.

Lemma recorded_size cwd : ∀ pids indices (d : gmap Z string),
  NoDup pids →
  length pids = length indices →
  (∀ pid, pid ∈ pids → d !! pid = None) →
  size (recorded cwd pids indices d) = (size d + length pids)%nat.
Proof.
  induction pids as [|p pids IH]; intros [|x indices] d Hnd Hlen Hfresh;
    try discriminate.
  - unfold recorded. cbn. lia.
  - apply NoDup_cons in Hnd as [Hp Hnd]. rewrite recorded_cons.
    rewrite IH; [|done|by injection Hlen|].
    + rewrite map_size_insert_None by apply Hfresh, list_elem_of_here. cbn. lia.
    + intros pid Hin. rewrite lookup_insert_ne by (intros ->; done).
      by apply Hfresh, list_elem_of_further.
Qed.

(** X6. [run]: when the forks of the start-up return in the parent with
    pairwise distinct pids, the wait loop is entered ([run] without fuel
    stops there) with exactly one entry per slot: the child of slot [i] under the path of slot [i]; the
    parent has forked these children, sent no signal and reaped nobody.
    With a count that is zero or negative nothing is forked. *)
Theorem run_starts_one_child_per_slot m n parts pids :
  (∀ w, os_getcwd (os_fork w).2 = os_getcwd w) →
  shutdown (self m) = false →
  sandboxes (self m) = ∅ →
  count (self m) = VInt n →
  divide (resume (self m)) (count (self m)) = Ok parts →
  length pids = Z.to_nat n →
  forks_answer (Success <$> pids) (world m) = true →
  Forall (λ cpid, cpid ≠ 0) pids →
  NoDup pids →
  ∃ m',
    run 0 m = (Ok None, m') ∧
    size (sandboxes (self m')) = Z.to_nat n ∧
    (∀ i pid, pids !! i = Some pid →
              sandboxes (self m') !! pid = Some (sandbox_path (os_getcwd (world m)) i)) ∧
    forked (trace m') = forked (trace m) ++ pids ∧
    (∀ c, signals_to c (trace m') = signals_to c (trace m)) ∧
    reaped (trace m') = reaped (trace m).
Proof.
  intros Hcwd Hrun Hempty Hcount Hdiv Hlen Hf Hnz Hnd.
  unfold run. steps. rewrite bind_run. cbn [get_self self]. cbv beta iota.
  rewrite bind_run. unfold lift at 1. rewrite Hdiv. cbv beta iota.
  rewrite bind_run. unfold lift at 1. rewrite Hcount. cbn [py_range]. cbv beta iota.
  set (m0 := Machine _ _ _).
  rewrite (bind_ok _ _ _ _ _ (startup_parent parts Hcwd pids (seq 0 (Z.to_nat n)) m0
                                (eq_trans Hlen (eq_sym (length_seq _ _))) Hf Hnz)).
  unfold guarded_loop. rewrite wait_loop_unfold. unfold m0.
  cbn [self set_sandboxes shutdown]. rewrite Hrun.
  eexists. split; [reflexivity|]. cbn [self world trace set_sandboxes sandboxes].
  rewrite Hempty. split; [|split; [|split; [|split]]].
  - rewrite recorded_size; [|done|by rewrite length_seq|by intros; apply lookup_empty].
    rewrite map_size_empty. lia.
  - intros i pid Hp. apply (recorded_lookup _ _ _ _ i); [done|done|].
    apply lookup_lt_Some in Hp. rewrite Hlen in Hp. by rewrite lookup_seq_lt.
  - rewrite !forked_app, forked_births. cbn. by rewrite app_nil_r.
  - intros c. rewrite !signals_to_app, signals_to_births. cbn. by rewrite !app_nil_r.
  - rewrite !reaped_app, reaped_births. cbn. by rewrite !app_nil_r.
Qed.

(** X7. [run]: a [fork] that fails during the start-up is raised before the
    [try ... finally]: [run] ends with that [OSError] without the kill
    pass, so the children forked so far stay in the record, neither
    signalled nor reaped. *)
Theorem run_fork_failure_at_startup m n parts pids errno fuel :
  (∀ w, os_getcwd (os_fork w).2 = os_getcwd w) →
  sandboxes (self m) = ∅ →
  count (self m) = VInt n →
  divide (resume (self m)) (count (self m)) = Ok parts →
  (length pids < Z.to_nat n)%nat →
  forks_answer ((Success <$> pids) ++ [Failure errno]) (world m) = true →
  Forall (λ cpid, cpid ≠ 0) pids →
  NoDup pids →
  ∃ m',
    run fuel m = (Raise (OSError errno), m') ∧
    size (sandboxes (self m')) = length pids ∧
    (∀ i pid, pids !! i = Some pid →
              sandboxes (self m') !! pid = Some (sandbox_path (os_getcwd (world m)) i)) ∧
    (∀ c, signals_to c (trace m') = signals_to c (trace m)) ∧
    reaped (trace m') = reaped (trace m).
Proof.
  intros Hcwd Hempty Hcount Hdiv Hlen Hf Hnz Hnd.
  unfold run. steps. rewrite bind_run. cbn [get_self self]. cbv beta iota.
  rewrite bind_run. unfold lift at 1. rewrite Hdiv. cbv beta iota.
  rewrite bind_run. unfold lift at 1. rewrite Hcount. cbn [py_range]. cbv beta iota.
  set (m0 := Machine _ _ _).
  assert (length pids < length (seq 0 (Z.to_nat n)))%nat as Hlen' by by rewrite length_seq.
  rewrite (bind_raise _ _ _ _ _ (startup_fork_fails parts Hcwd pids (seq 0 (Z.to_nat n)) m0
                                   errno Hlen' Hf Hnz)).
  eexists. split; [reflexivity|]. unfold m0. cbn [self world trace set_sandboxes sandboxes].
  rewrite Hempty. split; [|split; [|split]].
  - rewrite recorded_size; [|done| |by intros; apply lookup_empty].
    + rewrite map_size_empty. lia.
    + rewrite length_take, length_seq. lia.
  - intros i pid Hp. apply (recorded_lookup _ _ _ _ i); [done|done|].
    pose proof (lookup_lt_Some _ _ _ Hp) as Hi.
    rewrite lookup_take_lt by done. rewrite lookup_seq_lt by lia. done.
  - intros c. rewrite !signals_to_app, signals_to_births. cbn. by rewrite !app_nil_r.
  - rewrite !reaped_app, reaped_births. cbn. by rewrite !app_nil_r.
Qed.

(** ** A replacement that cannot be forked *)

(** X9. The wait loop pops the entry of the dead child before it forks: when
    the replacement [fork] fails, the entry is gone and nothing replaces
    it.  With [EINTR] the loop goes on, one worker short; with any other
    code the [OSError] ends the loop. *)
Theorem respawn_fork_failure m pid status w0 sandbox errno w1 fuel :
  shutdown (self m) = false →
  os_wait (world m) = (Success (pid, status), w0) →
  sandboxes (self m) !! pid = Some sandbox →
  os_fork w0 = (Failure errno, w1) →
  let m' := Machine (set_sandboxes (delete pid) (self m)) w1
              (trace m ++ obituary pid status) in
  wait_body m = (if decide (errno = EINTR) then Ok tt else Raise (OSError errno), m') ∧
  S (size (sandboxes (self m'))) = size (sandboxes (self m)) ∧
  sandboxes (self m') !! pid = None ∧
  forked (trace m') = forked (trace m) ∧
  (errno = EINTR → wait_loop (S fuel) m = wait_loop fuel m') ∧
  (errno ≠ EINTR → wait_loop (S fuel) m = (Raise (OSError errno), m')).
Proof.
  intros Hrun Hwait Hpid Hfork m'.
  assert (wait_body m
          = (if decide (errno = EINTR) then Ok tt else Raise (OSError errno), m')) as Hbody.
  { unfold wait_body, try_except.
    rewrite (bind_ok _ _ _ _ _ (os_success _ _ _ _ Hwait)).
    steps. rewrite bind_run, pop_tracked with (sandbox := sandbox) by done.
    cbv beta iota.
    erewrite bind_raise by (apply os_failure; cbn [world]; exact Hfork).
    cbn [self world trace]. unfold m', obituary. rewrite <- !app_assoc. cbn.
    by destruct (decide (errno = EINTR)). }
  split; [done|]. split; [|split; [|split; [|split]]].
  - unfold m'. cbn. rewrite map_size_delete_Some by eauto.
    assert (size (sandboxes (self m)) ≠ 0)%nat; [|lia].
    apply map_size_non_empty_iff. intros Hd. by rewrite Hd, lookup_empty in Hpid.
  - unfold m'. cbn. apply lookup_delete_eq.
  - unfold m'. cbn [trace]. rewrite forked_app. cbn. by rewrite app_nil_r.
  - intros ->. rewrite decide_True in Hbody by done.
    rewrite wait_loop_unfold, Hrun. by rewrite (bind_ok _ _ _ _ _ Hbody).
  - intros Hne. rewrite decide_False in Hbody by done.
    rewrite wait_loop_unfold, Hrun. by rewrite (bind_raise _ _ _ _ _ Hbody).
Qed.

(** ** The class of the workers *)

Lemma set_klass_same s : set_klass (klass s) s = s.
Proof. by destruct s. Qed.

Lemma spawn_unit options m :
  resolvable (self m) = true →
  spawn options m =
    (Ok (Unit (resolved (self m)) (queues (self m)) (client (self m))
           (options ∪ kwargs (self m))),
     Machine (set_klass (resolved (self m)) (self m)) (world m)
       (trace m ++ [WorkerUnit (resolved (self m)) (queues (self m)) (client (self m))
                      (options ∪ kwargs (self m))])).
Proof.
  unfold resolvable, resolved, spawn. intros Hk.
  rewrite bind_run. cbn [get_self]. cbv beta iota.
  destruct (klass (self m)) as [| | |name| |] eqn:Hklass;
    try (rewrite bind_run; cbn -[union]; rewrite <- Hklass, set_klass_same;
         by destruct m).
  destruct (import_class name) as [k|e] eqn:Himport; [|done].
  rewrite !bind_run. unfold lift at 1. by cbn -[union].
Qed.

(** X5. [spawn]: a class given by its name is imported and stored on the
    instance, so that the worker and the instance both hold the class;
    when the import fails, [spawn] ends with the exception of the import
    without building a worker or changing the instance; a class that is
    not a string is used as it is.  The stored keyword options are never
    changed. *)
Theorem spawn_resolves_class options m :
  (∀ name k,
     klass (self m) = VStr name → import_class name = Ok k →
     ∃ u m', spawn options m = (Ok u, m') ∧
             u_klass u = k ∧ klass (self m') = k ∧
             kwargs (self m') = kwargs (self m) ∧
             sandboxes (self m') = sandboxes (self m) ∧
             units (trace m') = units (trace m) ++ [options ∪ kwargs (self m)]) ∧
  (∀ name e,
     klass (self m) = VStr name → import_class name = Raise e →
     spawn options m = (Raise e, m)) ∧
  ((∀ name, klass (self m) ≠ VStr name) →
     ∃ u m', spawn options m = (Ok u, m') ∧
             u_klass u = klass (self m) ∧ self m' = self m ∧
             units (trace m') = units (trace m) ++ [options ∪ kwargs (self m)]).
Proof.
  split; [|split].
  - intros name k Hklass Himport.
    assert (resolvable (self m) = true) as Hr by (unfold resolvable; by rewrite Hklass, Himport).
    assert (resolved (self m) = k) as Hk by (unfold resolved; by rewrite Hklass, Himport).
    eexists _, _. split; [by apply spawn_unit|]. rewrite Hk. cbn.
    repeat split; try done. by rewrite units_app.
  - intros name e Hklass Himport. unfold spawn.
    rewrite bind_run. cbn [get_self]. cbv beta iota. rewrite Hklass.
    rewrite !bind_run. unfold lift at 1. by rewrite Himport.
  - intros Hns.
    assert (resolvable (self m) = true) as Hr.
    { unfold resolvable. destruct (klass (self m)) eqn:Hk; try done. by destruct (Hns s). }
    assert (resolved (self m) = klass (self m)) as Hk.
    { unfold resolved. destruct (klass (self m)) eqn:Hk; try done. by destruct (Hns s). }
    eexists _, _. split; [by apply spawn_unit|]. rewrite Hk. cbn.
    split; [done|]. split; [apply set_klass_same|]. by rewrite units_app.
Qed.

(** ** A replacement that exits *)

Lemma reap_signals cpid pid m c :
  signals_to c (trace (reap cpid pid m).2) = signals_to c (trace m).
Proof.
  destruct (os_waitpid cpid 0 (world m)) as [[[p status]|errno] w] eqn:Hwait.
  - rewrite (reap_success _ pid _ _ _ _ Hwait). cbn [snd trace].
    rewrite signals_to_app. cbn. by rewrite app_nil_r.
  - pose proof (reap_failure cpid pid m errno w Hwait) as Hreap. cbn zeta in Hreap.
    rewrite Hreap. destruct pid; cbn [snd trace];
      rewrite signals_to_app; cbn; by rewrite app_nil_r.
Qed.

Lemma reap_all_signals cpids : ∀ pid m c,
  signals_to c (trace (reap_all cpids pid m).2) = signals_to c (trace m).
Proof.
  induction cpids as [|cpid rest IH]; intros pid m c; [done|].
  cbn [reap_all]. rewrite bind_run.
  pose proof (reap_signals cpid pid m c) as Hreap.
  destruct (reap cpid pid m) as [[pid'|e] m']; cbn [snd] in *; [|done].
  by rewrite IH.
Qed.

(** The kill pass sends its signal whatever the waits do. *)
Lemma stop_signals sig m :
  kills_succeed (keys (sandboxes (self m))) sig (world m) = true →
  ∀ c, signals_to c (trace (stop sig m).2) =
         signals_to c (trace m) ++
         if decide (is_Some (sandboxes (self m) !! c)) then [sig] else [].
Proof.
  intros Hk c. unfold stop. rewrite bind_run. cbn [get_self]. cbv beta iota.
  rewrite (bind_ok _ _ _ _ _ (stop_kill_loop sig m Hk)).
  rewrite bind_run. cbn [get_self self]. cbv beta iota.
  set (m1 := Machine _ _ _). rewrite bind_run.
  pose proof (reap_all_signals (keys (sandboxes (self m))) None m1 c) as Hreap.
  assert (signals_to c (trace m1) =
          signals_to c (trace m) ++
          if decide (is_Some (sandboxes (self m) !! c)) then [sig] else []) as Hm1.
  { unfold m1. cbn [trace]. rewrite signals_to_app.
    rewrite (signals_to_fan_out (λ c, [Log WARN (Stopping c)])) by (done || apply NoDup_keys).
    f_equal. destruct (decide (c ∈ keys (sandboxes (self m)))) as [Hin|Hin];
      rewrite elem_of_keys in Hin.
    - by rewrite decide_True.
    - by rewrite decide_False. }
  clearbody m1.
  destruct (reap_all _ None m1) as [[pid'|e] m2]; cbn [snd] in Hreap; cbn;
    by rewrite Hreap.
Qed.

Lemma child_exits sandbox options m w1 w2 w3 :
  sandbox_enter sandbox (world m) = (Ok tt, w1) →
  os_chdir sandbox w1 = (Success tt, w2) →
  resolvable (self m) = true →
  worker_run (resolved (self m)) (queues (self m)) (client (self m))
    (options ∪ kwargs (self m)) w2 = (Ok tt, w3) →
  child sandbox (mret options) m =
    (Raise (SystemExit 0),
     Machine (set_klass (resolved (self m)) (self m)) w3
       (trace m ++ [EnterSandbox sandbox; Chdir sandbox;
                    WorkerUnit (resolved (self m)) (queues (self m)) (client (self m))
                      (options ∪ kwargs (self m));
                    LeaveSandbox sandbox])).
Proof.
  intros Henter Hchdir Hk Hwork. unfold child.
  rewrite bind_run. unfold ext at 1. rewrite Henter. steps.
  unfold try_finally.
  erewrite bind_ok by (apply os_success; cbn [world]; exact Hchdir).
  steps. rewrite bind_run. cbn [mret M_ret ret]. cbv beta iota.
  set (m1 := Machine _ _ _).
  rewrite (bind_ok _ _ _ _ _ (spawn_unit options m1 Hk)).
  unfold m1. cbn [self world trace u_klass u_queues u_client u_options].
  rewrite bind_run. unfold ext. cbn [world].
  cbn [set_klass queues client kwargs]. rewrite Hwork.
  cbn [raise emit self world trace]. by rewrite <- !app_assoc.
Qed.

(** X10. The replacement child, once its worker has run, leaves by [exit(0)]
    inside the [try] of the wait loop: [SystemExit] is no [OSError], so
    the loop is left and the [finally] clause runs [stop(SIGKILL)] in the
    child, on the record it inherited: every sibling still tracked is
    sent [SIGKILL] by the exiting replacement. *)
Theorem replacement_exit_kills_siblings m pid status sandbox w0 w1 w2 w3 w4 fuel :
  shutdown (self m) = false →
  os_wait (world m) = (Success (pid, status), w0) →
  sandboxes (self m) !! pid = Some sandbox →
  os_fork w0 = (Success 0, w1) →
  sandbox_enter sandbox w1 = (Ok tt, w2) →
  os_chdir sandbox w2 = (Success tt, w3) →
  resolvable (self m) = true →
  worker_run (resolved (self m)) (queues (self m)) (client (self m))
    ({["sandbox" := VStr sandbox]} ∪ kwargs (self m)) w3 = (Ok tt, w4) →
  kills_succeed (keys (delete pid (sandboxes (self m)))) SIGKILL w4 = true →
  wait_body m = (Raise (SystemExit 0), (wait_body m).2) ∧
  ∃ e m',
    guarded_loop (S fuel) m = (Raise e, m') ∧
    ∀ c, signals_to c (trace m') =
           signals_to c (trace m) ++
           if decide (c ≠ pid ∧ is_Some (sandboxes (self m) !! c)) then [SIGKILL] else [].
Proof.
  intros Hrun Hwait Hpid Hfork Henter Hchdir Hk Hwork Hkills.
  set (m1 := Machine (set_sandboxes (delete pid) (self m)) w1 (trace m ++ obituary pid status)).
  assert (resolvable (self m1) = true) as Hk1 by done.
  pose proof (child_exits sandbox {["sandbox" := VStr sandbox]} m1 w2 w3 w4
                Henter Hchdir Hk1 Hwork) as Hchild.
  set (m2 := Machine _ w4 _) in Hchild.
  assert (wait_body m = (Raise (SystemExit 0), m2)) as Hbody.
  { unfold wait_body, try_except.
    rewrite (bind_ok _ _ _ _ _ (os_success _ _ _ _ Hwait)).
    steps. rewrite bind_run, pop_tracked with (sandbox := sandbox) by done.
    cbv beta iota.
    erewrite bind_ok by (apply os_success; cbn [world]; exact Hfork).
    cbn [truthy Z.eqb negb self world trace].
    replace (Machine (set_sandboxes (delete pid) (self m)) w1
               ((trace m ++ [Reaped pid status]) ++
                [Log WARN (WorkerDied pid (status ≫ 8) (Z.land status 255))]))
      with m1 by (unfold m1, obituary; by rewrite <- app_assoc).
    by rewrite Hchild. }
  split; [by rewrite Hbody|].
  assert (wait_loop (S fuel) m = (Raise (SystemExit 0), m2)) as Hloop.
  { rewrite wait_loop_unfold, Hrun. by rewrite (bind_raise _ _ _ _ _ Hbody). }
  rewrite (guarded_loop_runs_stop _ _ _ _ Hloop) by done.
  assert (sandboxes (self m2) = delete pid (sandboxes (self m))) as Hd by done.
  assert (kills_succeed (keys (sandboxes (self m2))) SIGKILL (world m2) = true) as Hk2
    by (by rewrite Hd).
  pose proof (stop_signals SIGKILL m2 Hk2) as Hsig.
  assert (∀ c, signals_to c (trace m2) = signals_to c (trace m)) as Hm2.
  { intros c. unfold m2, m1. cbn [trace]. rewrite !signals_to_app. cbn.
    by rewrite !app_nil_r. }
  assert (∀ c, signals_to c (trace (stop SIGKILL m2).2) =
               signals_to c (trace m) ++
               if decide (c ≠ pid ∧ is_Some (sandboxes (self m) !! c))
               then [SIGKILL] else []) as Hfinal.
  { intros c. rewrite Hsig, Hm2, Hd. f_equal.
    destruct (decide (c = pid)) as [->|Hne].
    - rewrite lookup_delete_eq.
      rewrite (decide_False (P := is_Some None)) by (by intros [? ?]).
      by rewrite decide_False by (intros [? _]; done).
    - rewrite lookup_delete_ne by done.
      destruct (decide (is_Some (sandboxes (self m) !! c))).
      + by rewrite decide_True.
      + rewrite decide_False; [done|by intros [_ ?]]. }
  clearbody m2.
  destruct (stop SIGKILL m2) as [[[]|e] m3]; eexists _, _;
    (split; [reflexivity|]); exact Hfinal.
Qed.

(** ** A child of the start-up *)

Lemma forks_answer_app answers1 : ∀ answers2 w,
  forks_answer (answers1 ++ answers2) w =
    forks_answer answers1 w && forks_answer answers2 (after_forks (length answers1) w).
Proof.
  induction answers1 as [|r answers1 IH]; intros answers2 w; [done|].
  cbn [app forks_answer length after_forks]. by rewrite IH, andb_assoc.
Qed.

Lemma start_child parts index r m w1 w2 w3 w4 :
  os_fork (world m) = (Success 0, w1) →
  parts !! index = Some r →
  let sandbox := sandbox_path (os_getcwd (world m)) index in
  let options := <["resume" := VJobs r]> {["sandbox" := VStr sandbox]} in
  sandbox_enter sandbox w1 = (Ok tt, w2) →
  os_chdir sandbox w2 = (Success tt, w3) →
  resolvable (self m) = true →
  worker_run (resolved (self m)) (queues (self m)) (client (self m))
    (options ∪ kwargs (self m)) w3 = (Ok tt, w4) →
  start parts index m =
    (Raise (SystemExit 0),
     Machine (set_klass (resolved (self m)) (self m)) w4
       (trace m ++ [EnterSandbox sandbox; Chdir sandbox;
                    WorkerUnit (resolved (self m)) (queues (self m)) (client (self m))
                      (options ∪ kwargs (self m));
                    LeaveSandbox sandbox])).
Proof.
  intros Hfork Hparts sandbox options Henter Hchdir Hk Hwork. unfold start.
  rewrite bind_run. cbn [getcwd]. cbv beta iota.
  erewrite bind_ok by (apply os_success; exact Hfork).
  cbn [truthy Z.eqb negb]. rewrite Hparts.
  by apply (child_exits sandbox options (Machine (self m) w1 (trace m)) w2 w3 w4).
Qed.

(** X8. [run]: the child of a slot of the start-up runs its worker on the
    sub-assignment of its slot and leaves by [exit(0)] before the
    [try ... finally] of the wait loop is reached: unlike a replacement,
    it ends without the kill pass, and its elder siblings are sent
    nothing. *)
Theorem startup_child_exits_without_kill_pass m n parts pids r w1 w2 w3 fuel :
  (∀ w, os_getcwd (os_fork w).2 = os_getcwd w) →
  count (self m) = VInt n →
  divide (resume (self m)) (count (self m)) = Ok parts →
  (length pids < Z.to_nat n)%nat →
  forks_answer ((Success <$> pids) ++ [Success 0]) (world m) = true →
  Forall (λ cpid, cpid ≠ 0) pids →
  parts !! length pids = Some r →
  let sandbox := sandbox_path (os_getcwd (world m)) (length pids) in
  let options := <["resume" := VJobs r]> {["sandbox" := VStr sandbox]} in
  sandbox_enter sandbox (after_forks (S (length pids)) (world m)) = (Ok tt, w1) →
  os_chdir sandbox w1 = (Success tt, w2) →
  resolvable (self m) = true →
  worker_run (resolved (self m)) (queues (self m)) (client (self m))
    (options ∪ kwargs (self m)) w2 = (Ok tt, w3) →
  ∃ m',
    run fuel m = (Raise (SystemExit 0), m') ∧
    units (trace m') = units (trace m) ++ [options ∪ kwargs (self m)] ∧
    forked (trace m') = forked (trace m) ++ pids ∧
    (∀ c, signals_to c (trace m') = signals_to c (trace m)) ∧
    reaped (trace m') = reaped (trace m).
Proof.
  intros Hcwd Hcount Hdiv Hlen Hf Hnz Hparts sandbox options Henter Hchdir Hk Hwork.
  rewrite forks_answer_app, length_fmap in Hf. apply andb_true_iff in Hf as [Hf Hzero].
  cbn [forks_answer] in Hzero. rewrite andb_true_r in Hzero.
  apply bool_decide_eq_true in Hzero.
  unfold run. steps. rewrite bind_run. cbn [get_self self]. cbv beta iota.
  rewrite bind_run. unfold lift at 1. rewrite Hdiv. cbv beta iota.
  rewrite bind_run. unfold lift at 1. rewrite Hcount. cbn [py_range]. cbv beta iota.
  set (m0 := Machine _ _ _).
  replace (seq 0 (Z.to_nat n))
    with (seq 0 (length pids) ++ length pids :: seq (S (length pids))
                                                  (Z.to_nat n - S (length pids))).
  2:{ change (length pids :: seq (S (length pids)) (Z.to_nat n - S (length pids)))
        with (seq (0 + length pids) (S (Z.to_nat n - S (length pids)))).
      rewrite <- seq_app. f_equal. lia. }
  rewrite bind_run, for_each_app.
  rewrite (startup_parent parts Hcwd pids (seq 0 (length pids)) m0
             (eq_sym (length_seq _ _)) Hf Hnz).
  cbn [for_each]. rewrite bind_run.
  set (m1 := Machine _ _ _).
  assert (os_getcwd (world m1) = os_getcwd (world m)) as Hsame.
  { unfold m1, m0. cbn [world]. clear -Hcwd. generalize (world m).
    induction (length pids) as [|k IH]; intros w; [done|].
    cbn [after_forks]. by rewrite IH, Hcwd. }
  destruct (os_fork (world m1)) as [a w0] eqn:Hfork.
  assert (a = Success 0 ∧ w0 = after_forks (S (length pids)) (world m)) as [-> ->].
  { unfold m1, m0 in Hfork. cbn [world] in Hfork. clear -Hfork Hzero.
    revert Hfork Hzero. generalize (world m).
    induction (length pids) as [|k IH]; intros w Hfork Hzero.
    - cbn [after_forks] in *. rewrite Hfork in Hzero |- *. by cbn in *.
    - cbn [after_forks] in *. by apply IH. }
  rewrite (start_child parts (length pids) r m1 _ w1 w2 w3 Hfork Hparts); rewrite ?Hsame;
    [|exact Henter|exact Hchdir|exact Hk|exact Hwork].
  eexists. split; [reflexivity|]. unfold m1, m0. cbn [self world trace].
  split; [|split; [|split]].
  - rewrite !units_app. cbn.
    assert (units (births pids) = []) as -> by (clear; by induction pids).
    by rewrite !app_nil_r.
  - rewrite !forked_app, forked_births. cbn. by rewrite !app_nil_r.
  - intros c. rewrite !signals_to_app, signals_to_births. cbn. by rewrite !app_nil_r.
  - rewrite !reaped_app, reaped_births. cbn. by rewrite !app_nil_r.
Qed.

(** ** Leaving the wait loop *)

(** X11. [run]: however the wait loop is left (the flag, a fatal error of
    [wait] or of [fork], an event for an unknown pid), when the system
    accepts every [kill] and every [waitpid] of the [finally] clause
    returns the child waited for, each child still tracked is sent
    [SIGKILL] once and reaped, the record ends empty, and the outcome of
    the loop is the outcome of the guarded loop. *)
Theorem loop_exit_kills_and_reaps fuel m r m1 :
  wait_loop fuel m = (r, m1) →
  r ≠ Ok None →
  let cpids := keys (sandboxes (self m1)) in
  kills_succeed cpids SIGKILL (world m1) = true →
  waits_succeed cpids (after_kills cpids SIGKILL (world m1)) = true →
  ∃ m',
    guarded_loop fuel m = (r, m') ∧
    sandboxes (self m') = ∅ ∧
    reaped (trace m') = reaped (trace m1) ++ cpids ∧
    ∀ c, signals_to c (trace m') =
           signals_to c (trace m1) ++
           if decide (is_Some (sandboxes (self m1) !! c)) then [SIGKILL] else [].
Proof.
  intros Hloop Hr cpids Hk Hw.
  rewrite (guarded_loop_runs_stop _ _ _ _ Hloop Hr).
  destruct (stop_reaps_all SIGKILL m1 Hk Hw) as (m' & Hstop & Hempty & Hreaped & Hsig).
  rewrite Hstop. by exists m'.
Qed.

(** ** Sandboxes of different slots *)

Lemma sandbox_path_prefix cwd :
  ∃ prefix, ∀ index, sandbox_path cwd index = prefix +:+ "sandbox-" +:+ pretty index.
Proof.
  assert (∀ joined, ∃ prefix, ∀ index : nat,
            path_join joined ["sandbox-" +:+ pretty index] =
              prefix +:+ "sandbox-" +:+ pretty index) as Hlast.
  { intros joined.
    exists (if String.eqb joined "" || ends_with_slash joined then joined else joined +:+ "/").
    intros index. cbn [path_join].
    replace (starts_with_slash ("sandbox-" +:+ pretty index)) with false by done.
    destruct (String.eqb joined "" || ends_with_slash joined); [done|].
    by rewrite append_assoc. }
  unfold sandbox_path. cbn [path_join starts_with_slash Ascii.eqb Bool.eqb].
  destruct (String.eqb cwd "" || ends_with_slash cwd); apply Hlast.
Qed.

(** X12. The sandbox paths of two different slots differ, whatever the
    working directory: no two slots share a sandbox. *)
Theorem sandbox_paths_differ cwd index1 index2 :
  index1 ≠ index2 → sandbox_path cwd index1 ≠ sandbox_path cwd index2.
Proof.
  intros Hne Heq. destruct (sandbox_path_prefix cwd) as [prefix Hp].
  rewrite !Hp in Heq. apply Hne.
  by apply (inj pretty), (inj (String.append "sandbox-")), (inj (String.append prefix)).
Qed.

End Further.

(** * The logger *)

Section LoggerProperties.
Context {F : Type} `{!Logger.Disk F}.
Implicit Types (l : Logger.logging F).

Lemma remove_first_head h hs : Logger.remove_first h (h :: hs) = hs.
Proof. cbn. by rewrite decide_True. Qed.

(** The loop of [_reloadLogger] ends, with the logger bare, within as
    many turns as there are handlers. *)
Lemma drain_empties fuel : ∀ l,
  (length (Logger.handlers l) ≤ fuel)%nat →
  Logger.drain fuel l = Some (Logger.Logging [] (Logger.disk l) (Logger.records l)).
Proof.
  induction fuel as [|fuel IH]; intros [[|h hs] d rs] Hlen; cbn in Hlen; try done; try lia.
  cbn [Logger.drain Logger.handlers]. unfold Logger.removeHandler.
  cbn [Logger.handlers Logger.disk Logger.records].
  rewrite decide_True by apply list_elem_of_here. rewrite remove_first_head.
  rewrite IH by (cbn; lia). done.
Qed.

Lemma getLogger_configured l :
  Logger.handlers l ≠ [] → Logger._getLogger l = (Logger.Done tt, l).
Proof. unfold Logger._getLogger. by destruct (Logger.handlers l). Qed.

Lemma addHandler_new h l :
  h ∉ Logger.handlers l →
  Logger.addHandler h l =
    Logger.Logging (Logger.handlers l ++ [h]) (Logger.disk l) (Logger.records l).
Proof. intros Hh. unfold Logger.addHandler. by rewrite decide_False. Qed.

Lemma getLogger_builds d0 rs d1 d2 :
  Logger.open_append Logger.log_filename d0 = (Success tt, d1) →
  Logger.open_append Logger.logstash_filename d1 = (Success tt, d2) →
  Logger._getLogger (Logger.Logging [] d0 rs) =
    (Logger.Done tt,
     Logger.Logging [Logger.filehandler; Logger.logstash_handler; Logger.consolehandler]
       d2 rs).
Proof.
  intros H1 H2. unfold Logger._getLogger, Logger.WatchedFileHandler.
  cbn [Logger.handlers Logger.disk Logger.records]. rewrite H1.
  rewrite addHandler_new by apply not_elem_of_nil.
  cbn [Logger.handlers Logger.disk Logger.records app]. rewrite H2.
  rewrite (addHandler_new Logger.logstash_handler)
    by (by intros [?|[]%elem_of_nil]%elem_of_cons).
  cbn [Logger.handlers Logger.disk Logger.records app].
  rewrite addHandler_new; [done|].
  by intros [?|[?|[]%elem_of_nil]%elem_of_cons]%elem_of_cons.
Qed.

(** X13. [_getLogger] is idempotent: after a call that returned, a second call
    returns the logger as it is, without opening a file. *)
Theorem getLogger_idempotent l l1 :
  Logger._getLogger l = (Logger.Done tt, l1) →
  Logger._getLogger l1 = (Logger.Done tt, l1).
Proof.
  intros Hget. apply getLogger_configured.
  destruct l as [[|h hs] d rs].
  - unfold Logger._getLogger, Logger.WatchedFileHandler in Hget.
    cbn [Logger.handlers Logger.disk Logger.records] in Hget.
    destruct (Logger.open_append Logger.log_filename d) as [[[]|e1] d1]; [|done].
    rewrite addHandler_new in Hget by apply not_elem_of_nil.
    cbn [Logger.handlers Logger.disk Logger.records app] in Hget.
    destruct (Logger.open_append Logger.logstash_filename d1) as [[[]|e2] d2]; [|done].
    injection Hget as <-. unfold Logger.addHandler.
    repeat (destruct (decide _); cbn [Logger.handlers app]); done.
  - rewrite getLogger_configured in Hget by done. by injection Hget as <-.
Qed.

(** X15. [_reloadLogger]: when both log files can be opened, the reload ends
    within as many turns of its loop as the logger had handlers, and the
    logger then has exactly the three handlers of [_getLogger], whatever
    it had before; the first record went to the old handlers, the last
    one to the new ones. *)
Theorem reloadLogger_installs_the_three_handlers fuel l d1 d2 :
  (length (Logger.handlers l) ≤ fuel)%nat →
  Logger.open_append Logger.log_filename (Logger.disk l) = (Success tt, d1) →
  Logger.open_append Logger.logstash_filename d1 = (Success tt, d2) →
  let fresh := [Logger.filehandler; Logger.logstash_handler; Logger.consolehandler] in
  Logger._reloadLogger fuel l =
    Some (Logger.Done tt,
          Logger.Logging fresh d2
            (Logger.records l ++ [(ReloadingLogger, Logger.handlers l);
                                  (ReloadedLogger, fresh)])).
Proof.
  intros Hlen H1 H2 fresh. unfold Logger._reloadLogger.
  rewrite drain_empties by done. cbn [Logger.info Logger.handlers Logger.disk Logger.records].
  rewrite (getLogger_builds _ _ d1 d2 H1 H2). unfold Logger.info.
  cbn [Logger.handlers Logger.disk Logger.records]. by rewrite <- app_assoc.
Qed.

(** X14. [_getLogger]: when the first log file is opened and the second one is
    not, the call ends with [IOError] and leaves the logger with the
    file handler alone; as the logger is then no longer without handlers,
    no later call adds the two missing ones, whatever the file system
    does by then. *)
Theorem getLogger_partial_configuration_sticks l d1 errno d2 :
  Logger.handlers l = [] →
  Logger.open_append Logger.log_filename (Logger.disk l) = (Success tt, d1) →
  Logger.open_append Logger.logstash_filename d1 = (Failure errno, d2) →
  Logger._getLogger l =
    (Logger.IOError errno, Logger.Logging [Logger.filehandler] d2 (Logger.records l)) ∧
  ∀ d rs, let l' := Logger.Logging [Logger.filehandler] d rs in
          Logger._getLogger l' = (Logger.Done tt, l').
Proof.
  intros Hempty H1 H2. split; [|done].
  destruct l as [hs d rs]. cbn [Logger.handlers Logger.disk Logger.records] in *. subst hs.
  unfold Logger._getLogger, Logger.WatchedFileHandler.
  cbn [Logger.handlers Logger.disk Logger.records]. rewrite H1.
  rewrite addHandler_new by apply not_elem_of_nil.
  cbn [Logger.handlers Logger.disk Logger.records app]. by rewrite H2.
Qed.

(** X16. [_reloadLogger]: the old handlers are removed before the new ones are
    built.  When the first log file cannot be opened, the reload ends
    with [IOError] and the logger is left without any handler; the
    closing record is never handed to it. *)
Theorem reloadLogger_failure_leaves_no_handler fuel l errno d1 :
  (length (Logger.handlers l) ≤ fuel)%nat →
  Logger.open_append Logger.log_filename (Logger.disk l) = (Failure errno, d1) →
  Logger._reloadLogger fuel l =
    Some (Logger.IOError errno,
          Logger.Logging [] d1 (Logger.records l ++ [(ReloadingLogger, Logger.handlers l)])).
Proof.
  intros Hlen H1. unfold Logger._reloadLogger.
  rewrite drain_empties by done. cbn [Logger.info Logger.handlers Logger.disk Logger.records].
  unfold Logger._getLogger, Logger.WatchedFileHandler.
  cbn [Logger.handlers Logger.disk Logger.records]. by rewrite H1.
Qed.

End LoggerProperties.

(** ** The reload, from the supervisor *)

Section Agreement.
Context {W : Type} `{!Env W}.

(** The reload of the supervisor ends as [Logger._reloadLogger] does on
    any logger over the same file system, and leaves the same file
    system. *)
Lemma reloadLogger_agrees fuel (l : Logger.logging W) (m : machine W) :
  Logger.disk l = world m →
  (length (Logger.handlers l) ≤ fuel)%nat →
  ∃ out l',
    Logger._reloadLogger fuel l = Some (out, l') ∧
    (_reloadLogger m).1 =
      match out with
      | Logger.Done _ => Ok tt
      | Logger.IOError errno => Raise (IOError errno)
      end ∧
    world (_reloadLogger m).2 = Logger.disk l'.
Proof.
  intros Hdisk Hlen. rewrite reloadLogger_run. unfold logs_open, Logger._reloadLogger.
  rewrite drain_empties by done.
  unfold Logger.info at 1 2. cbn [Logger.handlers Logger.disk Logger.records].
  unfold Logger._getLogger, Logger.WatchedFileHandler.
  cbn [Logger.handlers Logger.disk Logger.records]. rewrite Hdisk.
  change (@Logger.open_append W env_disk) with os_open_append.
  destruct (os_open_append Logger.log_filename (world m)) as [[[]|e1] w1].
  2:{ eexists _, _. split; [reflexivity|]. by split. }
  rewrite addHandler_new by apply not_elem_of_nil.
  cbn [Logger.handlers Logger.disk Logger.records app].
  change (@Logger.open_append W env_disk) with os_open_append.
  destruct (os_open_append Logger.logstash_filename w1) as [[[]|e2] w2].
  2:{ eexists _, _. split; [reflexivity|]. by split. }
  eexists _, _. split; [reflexivity|]. split; [done|].
  unfold Logger.info, Logger.addHandler. cbn [Logger.handlers Logger.disk Logger.records].
  by repeat (case_decide; cbn [Logger.handlers Logger.disk Logger.records]).
Qed.

End Agreement.

(** * The simulated system at work *)

(** The pool is what the start-up loop of [run] leaves when [fork]
    returns 100, 101 and 102 in the parent. *)
Example pool_after_startup :
  self (run 0 (Machine (__init__ base)
                 (sys [Success 100; Success 101; Success 102] [] [] []) [])).2 = pool.
Proof. vm_compute. reflexivity. Qed.

(** C1, refuted as stated: the event for the unknown pid 555 is not
    ignored.  The loop, which could have gone on for three turns, ends at
    once with [KeyError]; the supervisor ends with that error after
    killing and reaping its three children. *)
Lemma unknown_pid_is_fatal :
  (wait_loop 3 stray).1 = Raise (KeyError 555) ∧
  (guarded_loop 3 stray).1 = Raise (KeyError 555) ∧
  sandboxes (self (guarded_loop 3 stray).2) = ∅ ∧
  sandboxes (self stray) ≠ ∅.
Proof.
  split; [by vm_compute|]. split; [by vm_compute|]. split; [by vm_compute|].
  intros Hempty. assert (sandboxes (self stray) !! 100 = None) as Hl
    by (by rewrite Hempty). by vm_compute in Hl.
Qed.

Lemma unknown_pid_ends_loop_witness :
  shutdown (self stray) = false ∧
  os_wait (world stray) = (Success (555, 0), sys [Success 103] [] [] []) ∧
  sandboxes (self stray) !! 555 = None ∧
  wait_loop 3 stray =
    (Raise (KeyError 555),
     Machine pool (sys [Success 103] [] [] []) (obituary 555 0)) ∧
  forked (obituary 555 0) = [].
Proof.
  assert (shutdown (self stray) = false) as H1 by reflexivity.
  assert (os_wait (world stray) = (Success (555, 0), sys [Success 103] [] [] []))
    as H2 by reflexivity.
  assert (sandboxes (self stray) !! 555 = None) as H3 by (vm_compute; reflexivity).
  destruct (unknown_pid_ends_loop stray 555 0 _ 2 H1 H2 H3) as (_ & Hloop & Hforked & _).
  repeat split; assumption.
Defined.

Lemma wait_failure_retry_or_fatal_witness :
  shutdown (self interrupted) = false ∧
  os_wait (world interrupted) = (Failure EINTR, sys [] [] [] []) ∧
  wait_body interrupted = (Ok tt, booted [] [] [] []) ∧
  wait_loop 2 interrupted = wait_loop 1 (booted [] [] [] []).
Proof.
  assert (shutdown (self interrupted) = false) as H1 by reflexivity.
  assert (os_wait (world interrupted) = (Failure EINTR, sys [] [] [] []))
    as H2 by reflexivity.
  destruct (wait_failure_retry_or_fatal interrupted EINTR _ 1 H1 H2) as [Hretry _].
  destruct (Hretry eq_refl) as [Hbody Hloop].
  repeat split; assumption.
Defined.

Lemma respawn_same_sandbox_same_size_witness :
  shutdown (self bereaved) = false ∧
  os_wait (world bereaved) = (Success (101, 256), sys [Success 103] [] [] []) ∧
  sandboxes (self bereaved) !! 101 = Some (sandbox_path "/srv/app" 1) ∧
  os_fork (sys [Success 103] [] [] []) = (Success 103, sys [] [] [] []) ∧
  103 ≠ 0 ∧
  delete 101 (sandboxes (self bereaved)) !! 103 = None ∧
  ∃ m',
    wait_body bereaved = (Ok tt, m') ∧
    forked (trace m') = [103] ∧
    sandboxes (self m') !! 103 = Some (sandbox_path "/srv/app" 1) ∧
    size (sandboxes (self m')) = size (sandboxes (self bereaved)).
Proof.
  assert (shutdown (self bereaved) = false) as H1 by reflexivity.
  assert (os_wait (world bereaved) = (Success (101, 256), sys [Success 103] [] [] []))
    as H2 by reflexivity.
  assert (sandboxes (self bereaved) !! 101 = Some (sandbox_path "/srv/app" 1))
    as H3 by (vm_compute; reflexivity).
  assert (os_fork (sys [Success 103] [] [] []) = (Success 103, sys [] [] [] []))
    as H4 by reflexivity.
  assert (103 ≠ 0) as H5 by lia.
  assert (delete 101 (sandboxes (self bereaved)) !! 103 = None)
    as H6 by (vm_compute; reflexivity).
  destruct (respawn_same_sandbox_same_size bereaved 101 256 _ _ 103 _ H1 H2 H3 H4 H5 H6)
    as (m' & Hbody & _ & _ & Hforked & Hnew & _ & _ & Hsize & _).
  repeat split; try assumption. exists m'. repeat split; assumption.
Defined.

(** C3, at a failing input.  The loop is left by the [OSError] of [fork]
    and [stop(SIGKILL)] runs over the two children still tracked.  Both
    are sent [SIGKILL]; the first [waitpid] returns, the second one
    fails.  [stop] logs the failure and returns, and the [OSError] of the
    loop goes on: but the [finally] clause of [stop] popped [pid], the
    child reaped a turn before, so the child whose wait failed is still in
    the sandbox record, killed and never reaped.  The shutdown sequence is
    over and the record is not empty. *)
Theorem kill_pass_leaves_record_nonempty :
  let end_ := guarded_loop 1 forkless in
  end_.1 = Raise (OSError EAGAIN) ∧
  size (sandboxes (self end_.2)) = 1%nat ∧
  length (wait_errors (trace end_.2)) = 1%nat ∧
  ∀ cpid, is_Some (sandboxes (self end_.2) !! cpid) →
          signals_to cpid (trace end_.2) = [SIGKILL] ∧
          cpid ∈ wait_errors (trace end_.2) ∧
          cpid ∉ reaped (trace end_.2).
Proof.
  cbv zeta. split; [by vm_compute|]. split; [by vm_compute|]. split; [by vm_compute|].
  intros cpid Hcpid.
  assert (cpid = 100) as ->.
  { destruct Hcpid as [sandbox Hcpid].
    assert ((cpid, sandbox) ∈ map_to_list (sandboxes (self (guarded_loop 1 forkless).2)))
      as Hin by (by apply elem_of_map_to_list).
    vm_compute in Hin. apply list_elem_of_In in Hin as [[= <- <-]|[]]. reflexivity. }
  split; [by vm_compute|]. split.
  - apply list_elem_of_In. vm_compute. by left.
  - intros Hin. apply list_elem_of_In in Hin. vm_compute in Hin. intuition lia.
Qed.

(** C7, at a failing input: the wait for the first child fails.  The
    failure is logged, but the [finally] clause then reads [pid], which no
    [waitpid] has bound yet: [stop] ends with [UnboundLocalError], the two
    other children are never waited for and the sandbox record still has
    its three entries. *)
Theorem stop_aborts_on_first_wait_failure :
  let end_ := stop SIGINT unwaitable in
  end_.1 = Raise (UnboundLocalError "pid") ∧
  length (wait_errors (trace end_.2)) = 1%nat ∧
  reaped (trace end_.2) = [] ∧
  size (sandboxes (self end_.2)) = 3%nat ∧
  sandboxes (self end_.2) = sandboxes (self unwaitable).
Proof. cbv zeta. repeat split; by vm_compute. Qed.

(** The same failure through the general lemma. *)
Lemma stop_first_wait_fails_witness :
  ∃ m', stop SIGINT unwaitable = (Raise (UnboundLocalError "pid"), m') ∧
        self m' = self unwaitable.
Proof.
  assert (keys (sandboxes (self unwaitable)) = 101 :: [102; 100]) as H1
    by (vm_compute; reflexivity).
  assert (kills_succeed (101 :: [102; 100]) SIGINT (world unwaitable) = true) as H2
    by (vm_compute; reflexivity).
  assert (os_waitpid 101 0 (after_kills (101 :: [102; 100]) SIGINT (world unwaitable))
          = (Failure ECHILD, sys [] [] [] [])) as H3 by (vm_compute; reflexivity).
  destruct (stop_first_wait_fails SIGINT unwaitable 101 [102; 100] ECHILD
              (sys [] [] [] []) H1 H2 H3)
    as (m' & Hstop & Hself & _).
  exists m'. split; assumption.
Defined.

Lemma stop_reaps_all_witness :
  ∃ m', stop SIGINT quiet = (Ok tt, m') ∧ sandboxes (self m') = ∅.
Proof.
  assert (kills_succeed (keys (sandboxes (self quiet))) SIGINT (world quiet) = true) as H1
    by (vm_compute; reflexivity).
  assert (waits_succeed (keys (sandboxes (self quiet)))
            (after_kills (keys (sandboxes (self quiet))) SIGINT (world quiet)) = true) as H2
    by (vm_compute; reflexivity).
  destruct (stop_reaps_all SIGINT quiet H1 H2) as (m' & Hstop & Hempty & _).
  exists m'. split; assumption.
Defined.

(** C4, refuted as stated.  The system refuses the second [kill] of the
    fan-out of [SIGTERM] ([ESRCH]): the handler ends with that [OSError]
    instead of [exit(0)], and child 100, which is tracked, is sent
    nothing.  And when the directory of the log files is gone, [SIGHUP]
    reaches the three children but the handler ends with [IOError], the
    logger not rebuilt. *)
Lemma refused_kill_stops_fan_out :
  (handler SIGTERM unkillable).1 = Raise (OSError ESRCH) ∧
  is_Some (sandboxes (self unkillable) !! 100) ∧
  signals_to 100 (trace (handler SIGTERM unkillable).2) = [] ∧
  (handler SIGHUP logless).1 = Raise (IOError Logger.ENOENT) ∧
  reloads (trace (handler SIGHUP logless).2) = 0%nat.
Proof.
  split; [by vm_compute|]. split; [|split; [by vm_compute|split; by vm_compute]].
  exists (sandbox_path "/srv/app" 0). vm_compute. reflexivity.
Qed.

(** C4 on the simulated pool: [SIGTERM] reaches each of the three
    children once, nobody else, and ends the parent; [SIGHUP] reaches
    them and the logger is rebuilt, the two log files opened; without
    the directory of the log files the reload fails; a refused [kill]
    ends the fan-out. *)
Lemma handler_fans_out_witness :
  (∃ m' sent,
     handler SIGTERM quiet = (Raise (SystemExit 0), m') ∧
     trace m' = trace quiet ++ sent ∧
     signals_to 100 sent = [SIGTERM] ∧
     signals_to 101 sent = [SIGTERM] ∧
     signals_to 102 sent = [SIGTERM] ∧
     signals_to 103 sent = [] ∧
     reloads sent = 0%nat) ∧
  (∃ m' sent,
     handler SIGHUP quiet = (Ok tt, m') ∧
     trace m' = trace quiet ++ sent ∧
     signals_to 101 sent = [SIGHUP] ∧
     reloads sent = 1%nat) ∧
  (∃ m' sent,
     handler SIGHUP logless = (Raise (IOError Logger.ENOENT), m') ∧
     trace m' = trace logless ++ sent ∧
     signals_to 101 sent = [SIGHUP] ∧
     reloads sent = 0%nat) ∧
  (∃ m',
     handler SIGTERM unkillable = (Raise (OSError ESRCH), m') ∧
     signals_to 101 (trace m') = [SIGTERM] ∧
     signals_to 100 (trace m') = []).
Proof.
  assert (SIGTERM ∈ [SIGTERM; SIGINT; SIGQUIT; SIGHUP]) as Hterm by apply list_elem_of_here.
  assert (SIGHUP ∈ [SIGTERM; SIGINT; SIGQUIT; SIGHUP]) as Hhup
    by (do 3 apply list_elem_of_further; apply list_elem_of_here).
  split; [|split; [|split]].
  - assert (kills_succeed (keys (sandboxes (self quiet))) SIGTERM (world quiet) = true) as H1
      by (vm_compute; reflexivity).
    assert (SIGTERM ≠ SIGHUP) as H2 by (vm_compute; lia).
    destruct (handler_fans_out quiet SIGTERM Hterm) as [Haccepted _].
    destruct (Haccepted H1) as (r & m' & sent & Hrun & _ & Htrace & Hfan & _ & _ & Hexit & _).
    destruct (Hexit H2) as (-> & _ & Hreload).
    exists m', sent. split; [exact Hrun|]. split; [exact Htrace|].
    rewrite !Hfan, Hreload. repeat split; vm_compute; reflexivity.
  - assert (kills_succeed (keys (sandboxes (self quiet))) SIGHUP (world quiet) = true) as H1
      by (vm_compute; reflexivity).
    assert (logs_open (after_kills (keys (sandboxes (self quiet))) SIGHUP (world quiet))
            = (Success tt, sys [] [] [] [])) as H2 by (vm_compute; reflexivity).
    destruct (handler_fans_out quiet SIGHUP Hhup) as [Haccepted _].
    destruct (Haccepted H1) as (r & m' & sent & Hrun & _ & Htrace & Hfan & _ & _ & _ & Hok & _).
    destruct (Hok eq_refl _ H2) as (-> & _ & Hreload).
    exists m', sent. split; [exact Hrun|]. split; [exact Htrace|].
    rewrite !Hfan, Hreload. repeat split; vm_compute; reflexivity.
  - assert (kills_succeed (keys (sandboxes (self logless))) SIGHUP (world logless) = true)
      as H1 by (vm_compute; reflexivity).
    assert (logs_open (after_kills (keys (sandboxes (self logless))) SIGHUP (world logless))
            = (Failure Logger.ENOENT, sys [] [] [] [])) as H2 by (vm_compute; reflexivity).
    destruct (handler_fans_out logless SIGHUP Hhup) as [Haccepted _].
    destruct (Haccepted H1)
      as (r & m' & sent & Hrun & _ & Htrace & Hfan & _ & _ & _ & _ & Hfail).
    destruct (Hfail eq_refl _ _ H2) as (-> & _ & Hreload).
    exists m', sent. split; [exact Hrun|]. split; [exact Htrace|].
    rewrite !Hfan, Hreload. repeat split; vm_compute; reflexivity.
  - assert (keys (sandboxes (self unkillable)) = [101] ++ 102 :: [100]) as H1
      by (vm_compute; reflexivity).
    assert (kills_succeed [101] SIGTERM (world unkillable) = true) as H2
      by (vm_compute; reflexivity).
    assert (os_kill 102 SIGTERM (after_kills [101] SIGTERM (world unkillable))
            = (Failure ESRCH, sys [] [] [] [])) as H3 by (vm_compute; reflexivity).
    destruct (handler_fans_out unkillable SIGTERM Hterm) as [_ Hrefused].
    destruct (Hrefused [101] 102 [100] ESRCH _ H1 H2 H3) as (m' & Hrun & _ & _ & _ & Hsig).
    exists m'. split; [exact Hrun|]. rewrite !Hsig. split; vm_compute; reflexivity.
Defined.

(** C5, refuted as stated: [SIGTERM] is delivered while the flag is
    false; the handler signals the children and ends with [exit(0)], and
    the flag is still false. *)
Lemma sigterm_leaves_flag_false :
  shutdown (self quiet) = false ∧
  (handler SIGTERM quiet).1 = Raise (SystemExit 0) ∧
  shutdown (self (handler SIGTERM quiet).2) = false.
Proof. repeat split; by vm_compute. Qed.

(** C8, refuted as stated: the supervisor was started with
    [resume=[j1, j2, j3, j4]]; the replacement of the child of slot 1 is
    built with that whole list as its [resume] option, not with a fresh
    start. *)
Lemma replacement_resumes_stored_jobs :
  let options := {["sandbox" := VStr "/srv/app/qless-py-workers/sandbox-1"]} ∪ kwargs pool in
  units (trace (wait_body reborn).2) = [options] ∧
  options !! "resume" = Some (VJobs ["j1"; "j2"; "j3"; "j4"]) ∧
  options !! "sandbox" = Some (VStr "/srv/app/qless-py-workers/sandbox-1").
Proof. cbv zeta. split; [|split]; vm_compute; reflexivity. Qed.

Lemma worker_options_at_start_and_respawn_witness :
  resolvable (self newborn) = true ∧
  resolvable (self reborn) = true ∧
  (∃ options,
     units (trace (start (deal ["j1"; "j2"; "j3"; "j4"] 3) 1 newborn).2) =
       units (trace newborn) ++ [options] ∧
     options !! "resume" = Some (VJobs ["j3"; "j4"])) ∧
  (∃ options,
     units (trace (wait_body reborn).2) = units (trace reborn) ++ [options] ∧
     options !! "resume" = kwargs (self reborn) !! "resume").
Proof.
  assert (resolvable (self newborn) = true) as H0 by (vm_compute; reflexivity).
  assert (resolvable (self reborn) = true) as H1 by (vm_compute; reflexivity).
  destruct (worker_options_at_start_and_respawn newborn H0) as [Hstart _].
  destruct (worker_options_at_start_and_respawn reborn H1) as [_ Hrespawn].
  split; [assumption|]. split; [assumption|]. split.
  - assert (divide (resume (self newborn)) (count (self newborn))
            = Ok (deal ["j1"; "j2"; "j3"; "j4"] 3)) as H2 by (vm_compute; reflexivity).
    assert (deal ["j1"; "j2"; "j3"; "j4"] 3 !! 1%nat = Some ["j3"; "j4"]) as H3
      by (vm_compute; reflexivity).
    assert (os_fork (world newborn) = (Success 0, sys [] [] [] []))
      as H4 by (vm_compute; reflexivity).
    assert (sandbox_enter (sandbox_path (os_getcwd (world newborn)) 1) (sys [] [] [] [])
            = (Ok tt, sys [] [] [] [])) as H5 by reflexivity.
    assert (os_chdir (sandbox_path (os_getcwd (world newborn)) 1) (sys [] [] [] [])
            = (Success tt, sys [] [] [] [])) as H6 by reflexivity.
    destruct (Hstart _ 1%nat ["j3"; "j4"] _ _ _ H2 H3 H4 H5 H6)
      as (options & Hunits & Hresume & _).
    exists options. split; assumption.
  - assert (os_wait (world reborn) = (Success (101, 256), sys [Success 0] [] [] []))
      as H2 by (vm_compute; reflexivity).
    assert (sandboxes (self reborn) !! 101 = Some (sandbox_path "/srv/app" 1))
      as H3 by (vm_compute; reflexivity).
    assert (os_fork (sys [Success 0] [] [] []) = (Success 0, sys [] [] [] []))
      as H4 by (vm_compute; reflexivity).
    assert (sandbox_enter (sandbox_path "/srv/app" 1) (sys [] [] [] [])
            = (Ok tt, sys [] [] [] [])) as H5 by reflexivity.
    assert (os_chdir (sandbox_path "/srv/app" 1) (sys [] [] [] [])
            = (Success tt, sys [] [] [] [])) as H6 by reflexivity.
    destruct (Hrespawn 101 256 _ _ _ _ _ H2 H3 H4 H5 H6)
      as (options & Hunits & _ & Hresume & _).
    exists options. split; assumption.
Defined.

Lemma sim_fork_keeps_cwd (w : sim) : os_getcwd (os_fork w).2 = os_getcwd w.
Proof. by destruct w as [cwd [|r forks] waits kills waitpids opens]. Qed.

Lemma sandbox_path_of_slot_is_stable_witness :
  (∀ pid sandbox,
     sandboxes (self (run 1 fresh).2) !! pid = Some sandbox →
     ∃ index, (index < 3)%nat ∧ sandbox = sandbox_path "/srv/app" index) ∧
  sandbox_path "/srv/app" 1 = "/srv/app/qless-py-workers/sandbox-1".
Proof.
  destruct (sandbox_path_of_slot_is_stable fresh) as (_ & _ & Hrun & Hshape).
  split.
  - exact (Hrun 3 1%nat sim_fork_keeps_cwd eq_refl eq_refl).
  - assert (os_getcwd (world fresh) ≠ "") as H1 by discriminate.
    assert (ends_with_slash (os_getcwd (world fresh)) = false) as H2 by reflexivity.
    exact (Hshape 1%nat H1 H2).
Defined.

(** The scenario of three workers: after the start-up and one respawn the
    record has three entries, the replacement 103 sits in the sandbox of
    slot 1, and the loop is still going. *)
Example three_workers_one_respawn :
  let now := run 1 fresh in
  now.1 = Ok None ∧
  forked (trace now.2) = [100; 101; 102; 103] ∧
  size (sandboxes (self now.2)) = 3%nat ∧
  sandboxes (self now.2) !! 100 = Some "/srv/app/qless-py-workers/sandbox-0" ∧
  sandboxes (self now.2) !! 103 = Some "/srv/app/qless-py-workers/sandbox-1" ∧
  sandboxes (self now.2) !! 102 = Some "/srv/app/qless-py-workers/sandbox-2" ∧
  sandboxes (self now.2) !! 101 = None.
Proof. cbv zeta. repeat split; vm_compute; reflexivity. Qed.

Lemma init_count_and_options_witness :
  count (__init__ base) = VInt 3 ∧
  kwargs (__init__ base) !! "workers" = None ∧
  kwargs (__init__ base) !! "klass" = None ∧
  count (__init__ {| w_queues := []; w_client := ""; w_kwargs := ∅; w_resume := [] |})
    = VInt 4.
Proof.
  destruct (init_count_and_options (W := sim) base) as (_ & _ & Hn & _ & _ & Hw & Hk & _).
  destruct (init_count_and_options (W := sim)
              {| w_queues := []; w_client := ""; w_kwargs := ∅; w_resume := [] |})
    as (Hnone & _).
  assert (w_kwargs base !! "workers" = Some (VInt 3)) as H1 by (vm_compute; reflexivity).
  split; [apply (Hn 3); [lia|exact H1]|]. split; [exact Hw|]. split; [exact Hk|].
  apply Hnone. apply lookup_empty.
Defined.

(** ** The further properties on the simulated system *)

(** The second [kill] of [stop(SIGINT)] is refused: the first child of
    the pass has been signalled, the last one has not, nobody is
    reaped. *)
Lemma stop_kill_failure_witness :
  keys (sandboxes (self unkillable)) = [101] ++ 102 :: [100] ∧
  ∃ m', stop SIGINT unkillable = (Raise (OSError ESRCH), m') ∧
        self m' = self unkillable ∧
        reaped (trace m') = [] ∧
        signals_to 101 (trace m') = [SIGINT] ∧
        signals_to 100 (trace m') = [].
Proof.
  assert (keys (sandboxes (self unkillable)) = [101] ++ 102 :: [100]) as H1
    by (vm_compute; reflexivity).
  assert (kills_succeed [101] SIGINT (world unkillable) = true) as H2
    by (vm_compute; reflexivity).
  assert (os_kill 102 SIGINT (after_kills [101] SIGINT (world unkillable))
          = (Failure ESRCH, sys [] [] [] [])) as H3 by (vm_compute; reflexivity).
  destruct (stop_kill_failure SIGINT unkillable [101] 102 [100] ESRCH _ H1 H2 H3)
    as (m' & Hstop & Hself & _ & Hreaped & Hsig).
  split; [exact H1|]. exists m'.
  split; [exact Hstop|]. split; [exact Hself|]. split; [exact Hreaped|].
  rewrite !Hsig. split; vm_compute; reflexivity.
Defined.

Lemma handler_kill_failure_witness :
  ∃ m', handler SIGHUP unkillable = (Raise (OSError ESRCH), m') ∧
        reloads (trace m') = 0%nat ∧
        signals_to 101 (trace m') = [SIGHUP] ∧
        signals_to 100 (trace m') = [].
Proof.
  assert (SIGHUP ∈ [SIGTERM; SIGINT; SIGQUIT; SIGHUP]) as H0
    by (do 3 apply list_elem_of_further; apply list_elem_of_here).
  assert (keys (sandboxes (self unkillable)) = [101] ++ 102 :: [100]) as H1
    by (vm_compute; reflexivity).
  assert (kills_succeed [101] SIGHUP (world unkillable) = true) as H2
    by (vm_compute; reflexivity).
  assert (os_kill 102 SIGHUP (after_kills [101] SIGHUP (world unkillable))
          = (Failure ESRCH, sys [] [] [] [])) as H3 by (vm_compute; reflexivity).
  destruct (handler_kill_failure unkillable SIGHUP [101] 102 [100] ESRCH _ H0 H1 H2 H3)
    as (m' & Hrun & _ & Hreload & Hsig).
  exists m'. split; [exact Hrun|]. split; [exact Hreload|].
  rewrite !Hsig. split; vm_compute; reflexivity.
Defined.

(** The wait for the second child of the pass, 102, is interrupted:
    [stop] returns, and 102 is still in the record. *)
Lemma stop_leaves_failed_waits_witness :
  failed_waits (keys (sandboxes (self half_waited)))
    (after_kills (keys (sandboxes (self half_waited))) SIGINT (world half_waited)) = [102] ∧
  ∃ m', stop SIGINT half_waited = (Ok tt, m') ∧
        sandboxes (self m') !! 102 = Some (sandbox_path "/srv/app" 2) ∧
        sandboxes (self m') !! 100 = None ∧
        wait_errors (trace m') = [102].
Proof.
  assert (kills_succeed (keys (sandboxes (self half_waited))) SIGINT (world half_waited)
          = true) as H1 by (vm_compute; reflexivity).
  assert (waits_honest (keys (sandboxes (self half_waited)))
            (after_kills (keys (sandboxes (self half_waited))) SIGINT (world half_waited))
          = true) as H2 by (vm_compute; reflexivity).
  assert (first_wait_returns (keys (sandboxes (self half_waited)))
            (after_kills (keys (sandboxes (self half_waited))) SIGINT (world half_waited))
          = true) as H3 by (vm_compute; reflexivity).
  assert (failed_waits (keys (sandboxes (self half_waited)))
            (after_kills (keys (sandboxes (self half_waited))) SIGINT (world half_waited))
          = [102]) as H4 by (vm_compute; reflexivity).
  destruct (stop_leaves_failed_waits SIGINT half_waited H1 H2 H3)
    as (m' & Hstop & Hrecord & Herrors & _).
  split; [exact H4|]. exists m'. split; [exact Hstop|].
  rewrite !Hrecord, Herrors, H4. repeat split; vm_compute; reflexivity.
Defined.

Lemma run_starts_one_child_per_slot_witness :
  ∃ m', run 0 fresh = (Ok None, m') ∧
        size (sandboxes (self m')) = 3%nat ∧
        sandboxes (self m') !! 101 = Some (sandbox_path "/srv/app" 1) ∧
        forked (trace m') = [100; 101; 102].
Proof.
  assert (shutdown (self fresh) = false) as H1 by reflexivity.
  assert (sandboxes (self fresh) = ∅) as H2 by reflexivity.
  assert (count (self fresh) = VInt 3) as H3 by (vm_compute; reflexivity).
  assert (divide (resume (self fresh)) (count (self fresh))
          = Ok (deal ["j1"; "j2"; "j3"; "j4"] 3)) as H4 by (vm_compute; reflexivity).
  assert (length [100; 101; 102] = Z.to_nat 3) as H5 by reflexivity.
  assert (forks_answer (Success <$> [100; 101; 102]) (world fresh) = true) as H6
    by (vm_compute; reflexivity).
  assert (Forall (λ cpid, cpid ≠ 0) [100; 101; 102]) as H7
    by (repeat constructor; lia).
  assert (NoDup [100; 101; 102]) as H8
    by (repeat constructor; rewrite ?elem_of_cons, ?elem_of_nil; lia).
  destruct (run_starts_one_child_per_slot fresh 3 _ [100; 101; 102]
              sim_fork_keeps_cwd H1 H2 H3 H4 H5 H6 H7 H8)
    as (m' & Hrun & Hsize & Hslots & Hforked & _).
  exists m'. split; [exact Hrun|]. split; [exact Hsize|].
  split; [exact (Hslots 1%nat 101 eq_refl)|exact Hforked].
Defined.

(** The second [fork] of the start-up fails: [run] ends with its
    [OSError], and the child of slot 0 stays in the record, neither
    signalled nor reaped. *)
Lemma run_fork_failure_at_startup_witness :
  ∃ m', run 5 starved = (Raise (OSError EAGAIN), m') ∧
        size (sandboxes (self m')) = 1%nat ∧
        sandboxes (self m') !! 100 = Some (sandbox_path "/srv/app" 0) ∧
        signals_to 100 (trace m') = [] ∧
        reaped (trace m') = [].
Proof.
  assert (sandboxes (self starved) = ∅) as H2 by reflexivity.
  assert (count (self starved) = VInt 3) as H3 by (vm_compute; reflexivity).
  assert (divide (resume (self starved)) (count (self starved))
          = Ok (deal ["j1"; "j2"; "j3"; "j4"] 3)) as H4 by (vm_compute; reflexivity).
  assert (length [100] < Z.to_nat 3)%nat as H5 by (vm_compute; lia).
  assert (forks_answer ((Success <$> [100]) ++ [Failure EAGAIN]) (world starved) = true)
    as H6 by (vm_compute; reflexivity).
  assert (Forall (λ cpid, cpid ≠ 0) [100]) as H7 by (repeat constructor; lia).
  assert (NoDup [100]) as H8
    by (repeat constructor; rewrite ?elem_of_cons, ?elem_of_nil; lia).
  destruct (run_fork_failure_at_startup starved 3 _ [100] EAGAIN 5
              sim_fork_keeps_cwd H2 H3 H4 H5 H6 H7 H8)
    as (m' & Hrun & Hsize & Hslots & Hsig & Hreaped).
  exists m'. split; [exact Hrun|]. split; [exact Hsize|].
  split; [exact (Hslots 0%nat 100 eq_refl)|]. split; [exact (Hsig 100)|exact Hreaped].
Defined.

(** The child of slot 1 exits and its replacement cannot be forked
    ([EAGAIN]): the loop ends with two entries left. *)
Lemma respawn_fork_failure_witness :
  ∃ m', wait_loop 3 forkless = (Raise (OSError EAGAIN), m') ∧
        size (sandboxes (self m')) = 2%nat ∧
        sandboxes (self m') !! 101 = None.
Proof.
  assert (shutdown (self forkless) = false) as H1 by reflexivity.
  assert (os_wait (world forkless)
          = (Success (101, 256), sys [Failure EAGAIN] [] [] [Success 9; Failure EINTR]))
    as H2 by reflexivity.
  assert (sandboxes (self forkless) !! 101 = Some (sandbox_path "/srv/app" 1)) as H3
    by (vm_compute; reflexivity).
  assert (os_fork (sys [Failure EAGAIN] [] [] [Success 9; Failure EINTR])
          = (Failure EAGAIN, sys [] [] [] [Success 9; Failure EINTR])) as H4 by reflexivity.
  assert (EAGAIN ≠ EINTR) as H5 by (vm_compute; lia).
  destruct (respawn_fork_failure forkless 101 256 _ _ EAGAIN _ 2 H1 H2 H3 H4)
    as (_ & Hsize & Hgone & _ & _ & Hfatal).
  eexists. split; [exact (Hfatal H5)|]. split; [|exact Hgone].
  apply Nat.succ_inj. refine (eq_trans Hsize _). vm_compute. reflexivity.
Defined.

(** A class given by its name is imported by [spawn] and stored. *)
Lemma spawn_resolves_class_witness :
  ∃ u m', spawn ∅ named = (Ok u, m') ∧
          u_klass u = VClass "qless.workers.greenlet.GeventWorker" ∧
          klass (self m') = VClass "qless.workers.greenlet.GeventWorker".
Proof.
  destruct (spawn_resolves_class ∅ named) as (Hname & _ & _).
  destruct (Hname "qless.workers.greenlet.GeventWorker"
              (VClass "qless.workers.greenlet.GeventWorker") eq_refl eq_refl)
    as (u & m' & Hspawn & Hu & Hk & _).
  exists u, m'. split; [exact Hspawn|]. split; [exact Hu|exact Hk].
Defined.

(** The replacement of the child of slot 1 runs its worker and exits:
    on its way out it sends [SIGKILL] to 100 and 102, the children of
    its parent. *)
Lemma replacement_exit_kills_siblings_witness :
  ∃ e m', guarded_loop 1 reborn = (Raise e, m') ∧
          signals_to 100 (trace m') = [SIGKILL] ∧
          signals_to 102 (trace m') = [SIGKILL] ∧
          signals_to 101 (trace m') = [].
Proof.
  assert (shutdown (self reborn) = false) as H1 by reflexivity.
  assert (os_wait (world reborn) = (Success (101, 256), sys [Success 0] [] [] []))
    as H2 by reflexivity.
  assert (sandboxes (self reborn) !! 101 = Some (sandbox_path "/srv/app" 1)) as H3
    by (vm_compute; reflexivity).
  assert (os_fork (sys [Success 0] [] [] []) = (Success 0, sys [] [] [] [])) as H4
    by reflexivity.
  assert (sandbox_enter (sandbox_path "/srv/app" 1) (sys [] [] [] [])
          = (Ok tt, sys [] [] [] [])) as H5 by reflexivity.
  assert (os_chdir (sandbox_path "/srv/app" 1) (sys [] [] [] [])
          = (Success tt, sys [] [] [] [])) as H6 by reflexivity.
  assert (resolvable (self reborn) = true) as H7 by (vm_compute; reflexivity).
  assert (worker_run (resolved (self reborn)) (queues (self reborn)) (client (self reborn))
            ({["sandbox" := VStr (sandbox_path "/srv/app" 1)]} ∪ kwargs (self reborn))
            (sys [] [] [] []) = (Ok tt, sys [] [] [] [])) as H8 by reflexivity.
  assert (kills_succeed (keys (delete 101 (sandboxes (self reborn)))) SIGKILL
            (sys [] [] [] []) = true) as H9 by (vm_compute; reflexivity).
  destruct (replacement_exit_kills_siblings reborn 101 256 _ _ _ _ _ _ 0
              H1 H2 H3 H4 H5 H6 H7 H8 H9) as (_ & e & m' & Hrun & Hsig).
  exists e, m'. split; [exact Hrun|].
  rewrite !Hsig. repeat split; vm_compute; reflexivity.
Defined.

(** The first child of slot 1 runs its worker on the jobs of its slot
    and exits; the child of slot 0 is sent nothing. *)
Lemma startup_child_exits_without_kill_pass_witness :
  ∃ m' options,
    run 5 secondborn = (Raise (SystemExit 0), m') ∧
    units (trace m') = [options] ∧
    options !! "resume" = Some (VJobs ["j3"; "j4"]) ∧
    signals_to 100 (trace m') = [].
Proof.
  assert (count (self secondborn) = VInt 3) as H1 by (vm_compute; reflexivity).
  assert (divide (resume (self secondborn)) (count (self secondborn))
          = Ok (deal ["j1"; "j2"; "j3"; "j4"] 3)) as H2 by (vm_compute; reflexivity).
  assert (length [100] < Z.to_nat 3)%nat as H3 by (vm_compute; lia).
  assert (forks_answer ((Success <$> [100]) ++ [Success 0]) (world secondborn) = true)
    as H4 by (vm_compute; reflexivity).
  assert (Forall (λ cpid, cpid ≠ 0) [100]) as H5 by (repeat constructor; lia).
  assert (deal ["j1"; "j2"; "j3"; "j4"] 3 !! length [100] = Some ["j3"; "j4"]) as H6
    by (vm_compute; reflexivity).
  assert (sandbox_enter (sandbox_path (os_getcwd (world secondborn)) (length [100]))
            (after_forks (S (length [100])) (world secondborn))
          = (Ok tt, sys [] [] [] [])) as H7 by reflexivity.
  assert (os_chdir (sandbox_path (os_getcwd (world secondborn)) (length [100]))
            (sys [] [] [] []) = (Success tt, sys [] [] [] [])) as H8 by reflexivity.
  assert (resolvable (self secondborn) = true) as H9 by (vm_compute; reflexivity).
  assert (worker_run (resolved (self secondborn)) (queues (self secondborn))
            (client (self secondborn))
            (<["resume" := VJobs ["j3"; "j4"]]>
               {["sandbox" := VStr (sandbox_path (os_getcwd (world secondborn))
                                      (length [100]))]}
             ∪ kwargs (self secondborn))
            (sys [] [] [] []) = (Ok tt, sys [] [] [] [])) as H10 by reflexivity.
  destruct (startup_child_exits_without_kill_pass secondborn 3 _ [100] ["j3"; "j4"]
              _ _ _ 5 sim_fork_keeps_cwd H1 H2 H3 H4 H5 H6 H7 H8 H9 H10)
    as (m' & Hrun & Hunits & _ & Hsig & _).
  exists m'. eexists. split; [exact Hrun|]. split; [exact Hunits|].
  split; [vm_compute; reflexivity|exact (Hsig 100)].
Defined.

(** A fatal error of [wait] on the quiet pool: the three children are
    killed and reaped, the record ends empty and the error goes on. *)
Lemma loop_exit_kills_and_reaps_witness :
  ∃ m', guarded_loop 4 childless = (Raise (OSError ECHILD), m') ∧
        sandboxes (self m') = ∅ ∧
        signals_to 101 (trace m') = [SIGKILL].
Proof.
  assert (wait_loop 4 childless = (Raise (OSError ECHILD), quiet)) as H1
    by (vm_compute; reflexivity).
  assert (Raise (OSError ECHILD) ≠ Ok (None : option unit)) as H2 by discriminate.
  assert (kills_succeed (keys (sandboxes (self quiet))) SIGKILL (world quiet) = true) as H3
    by (vm_compute; reflexivity).
  assert (waits_succeed (keys (sandboxes (self quiet)))
            (after_kills (keys (sandboxes (self quiet))) SIGKILL (world quiet)) = true) as H4
    by (vm_compute; reflexivity).
  destruct (loop_exit_kills_and_reaps 4 childless _ quiet H1 H2 H3 H4)
    as (m' & Hrun & Hempty & _ & Hsig).
  exists m'. split; [exact Hrun|]. split; [exact Hempty|].
  rewrite Hsig. vm_compute. reflexivity.
Defined.

Lemma sandbox_paths_differ_witness :
  sandbox_path "/srv/app" 0 ≠ sandbox_path "/srv/app" 1.
Proof.
  assert (0 ≠ 1)%nat as H1 by lia.
  exact (sandbox_paths_differ "/srv/app" 0 1 H1).
Defined.

(** ** The logger on the simulated file system *)

Lemma getLogger_idempotent_witness :
  let configured :=
    Logger.Logging [Logger.filehandler; Logger.logstash_handler; Logger.consolehandler]
      (Logger.SimDisk [] [Logger.log_filename; Logger.logstash_filename]) [] in
  Logger._getLogger (Logger.bare []) = (Logger.Done tt, configured) ∧
  Logger._getLogger configured = (Logger.Done tt, configured).
Proof.
  intros configured.
  assert (Logger._getLogger (Logger.bare []) = (Logger.Done tt, configured)) as H1
    by (vm_compute; reflexivity).
  split; [exact H1|]. exact (getLogger_idempotent _ _ H1).
Defined.

(** A reload drops the stale handler and installs the three handlers,
    the two log files being opened in turn. *)
Lemma reloadLogger_installs_the_three_handlers_witness :
  ∃ l, Logger._reloadLogger 2 (Logger.running []) = Some (Logger.Done tt, l) ∧
       Logger.handlers l =
         [Logger.filehandler; Logger.logstash_handler; Logger.consolehandler] ∧
       Logger.opened (Logger.disk l) = [Logger.log_filename; Logger.logstash_filename].
Proof.
  assert (length (Logger.handlers (Logger.running [])) ≤ 2)%nat as H1 by (vm_compute; lia).
  assert (Logger.open_append Logger.log_filename (Logger.disk (Logger.running []))
          = (Success tt, Logger.SimDisk [] [Logger.log_filename])) as H2 by reflexivity.
  assert (Logger.open_append Logger.logstash_filename
            (Logger.SimDisk [] [Logger.log_filename])
          = (Success tt, Logger.SimDisk [] [Logger.log_filename; Logger.logstash_filename]))
    as H3 by reflexivity.
  eexists. split; [exact (reloadLogger_installs_the_three_handlers 2 _ _ _ H1 H2 H3)|].
  split; reflexivity.
Defined.

(** The second log file cannot be opened: the logger keeps the file
    handler alone. *)
Lemma getLogger_partial_configuration_sticks_witness :
  ∃ l, Logger._getLogger (Logger.bare [Success tt; Failure Logger.ENOENT])
         = (Logger.IOError Logger.ENOENT, l) ∧
       Logger.handlers l = [Logger.filehandler] ∧
       Logger._getLogger l = (Logger.Done tt, l).
Proof.
  assert (Logger.handlers (Logger.bare [Success tt; Failure Logger.ENOENT]) = []) as H1
    by reflexivity.
  assert (Logger.open_append Logger.log_filename
            (Logger.disk (Logger.bare [Success tt; Failure Logger.ENOENT]))
          = (Success tt, Logger.SimDisk [Failure Logger.ENOENT] [Logger.log_filename]))
    as H2 by reflexivity.
  assert (Logger.open_append Logger.logstash_filename
            (Logger.SimDisk [Failure Logger.ENOENT] [Logger.log_filename])
          = (Failure Logger.ENOENT,
             Logger.SimDisk [] [Logger.log_filename; Logger.logstash_filename]))
    as H3 by reflexivity.
  destruct (getLogger_partial_configuration_sticks _ _ _ _ H1 H2 H3) as [Hget Hlater].
  eexists. split; [exact Hget|]. split; [reflexivity|]. apply Hlater.
Defined.

(** The log directory is gone when the reload comes: the logger is left
    without a handler. *)
Lemma reloadLogger_failure_leaves_no_handler_witness :
  ∃ l, Logger._reloadLogger 2 (Logger.running [Failure Logger.ENOENT])
         = Some (Logger.IOError Logger.ENOENT, l) ∧
       Logger.handlers l = [] ∧
       Logger.records l = [(ReloadingLogger, [Logger.stale; Logger.consolehandler])].
Proof.
  assert (length (Logger.handlers (Logger.running [Failure Logger.ENOENT])) ≤ 2)%nat as H1
    by (vm_compute; lia).
  assert (Logger.open_append Logger.log_filename
            (Logger.disk (Logger.running [Failure Logger.ENOENT]))
          = (Failure Logger.ENOENT, Logger.SimDisk [] [Logger.log_filename])) as H2
    by reflexivity.
  eexists. split; [exact (reloadLogger_failure_leaves_no_handler 2 _ _ _ H1 H2)|].
  split; reflexivity.
Defined.
